(** * minions-mcu, camera firmware: trigger scheduling and clock-drift correction

    A shallow embedding of [src/camera/src/m_camera.cpp] and the properties of
    its scheduler: the three POSIX timers (trigger, drift, sync), the
    asynchronous [timer_handler], the start-up sequence of [main] and the two
    blocks of its polling loop.

    Conventions.
    - [long long] and [int] values are integers in [Z]; every arithmetic
      operation of the source is followed by the two's-complement wrap-around
      of its C++ type ([wrap64], [wrap32]).
    - [double] is IEEE-754 binary64, taken from the executable specification
      [SpecFloat] of the standard library (no primitive floats, no axioms).
    - The source threads its globals and the locals of [main] through every
      call and may leave through [exit]: the program is written in a small
      state-and-exit monad [M].
    - The collaborators that live outside this translation unit (remote clock
      adapter, peripheral, logger, kernel timers, monotonic clock) answer
      through explicit replies handed to each operation, and every call to
      them is recorded in the [trace] of the state. *)

From Stdlib Require Import ZArith Lia Bool List String.
From Stdlib Require Import Floats.SpecFloat.
Import ListNotations.
Open Scope Z_scope.

(** ** Machine integers *)

Module MachineInt.

Definition min_int64 : Z := - 2 ^ 63.
Definition max_int64 : Z := 2 ^ 63 - 1.

Definition in_int64 (z : Z) : bool := (min_int64 <=? z) && (z <=? max_int64).

(** Two's-complement reduction to [long long]. *)
Definition wrap64 (z : Z) : Z := (z + 2 ^ 63) mod 2 ^ 64 - 2 ^ 63.

(** Two's-complement reduction to [int]. *)
Definition wrap32 (z : Z) : Z := (z + 2 ^ 31) mod 2 ^ 32 - 2 ^ 31.

Definition add64 (a b : Z) : Z := wrap64 (a + b).
Definition sub64 (a b : Z) : Z := wrap64 (a - b).
Definition mul64 (a b : Z) : Z := wrap64 (a * b).
(** C++ [/] and [%] truncate toward zero. *)
Definition div64 (a b : Z) : Z := wrap64 (Z.quot a b).
Definition rem64 (a b : Z) : Z := wrap64 (Z.rem a b).

End MachineInt.
Import MachineInt.

(** ** IEEE-754 binary64 *)

Module Double.

Definition prec : Z := 53.
Definition emax : Z := 1024.

Definition double : Type := spec_float.

(** Conversion of an integer to [double], round to nearest even. *)
Definition of_int (z : Z) : double := binary_normalize prec emax z 0 false.

Definition div (x y : double) : double := SFdiv prec emax x y.
Definition mul (x y : double) : double := SFmul prec emax x y.

(** The cast [(long long) x]: the fractional part is discarded.  The C++
    standard leaves the conversion undefined when the truncated value is not
    representable (and for infinities and NaN): [None]. *)
Definition to_int64 (x : double) : option Z :=
  match x with
  | S754_zero _ => Some 0
  | S754_finite s m e =>
      let v := cond_Zopp s (Z.shiftl (Zpos m) e) in
      if in_int64 v then Some v else None
  | S754_infinity _ | S754_nan => None
  end.

(** The exponent function of the format: [fexp prec emax] unfolded. *)
Definition fexp64 (e : Z) : Z := Z.max (e - 53) (-1074).

(** [between a b x]: [x] is a positive finite [double] [m * 2^e] with
    [2^a <= m * 2^e <= 2^b].  ([2 ^ k] is [0] in [Z] for a negative [k],
    which is what both inequalities need when [m] is positive.) *)
Definition between (a b : Z) (x : double) : Prop :=
  exists m e, x = S754_finite false m e /\
              2 ^ (a - e) <= Zpos m /\ Zpos m <= 2 ^ (b - e).

End Double.

(** ** Constants of the translation unit *)

(** Modelled from the spec: the macro [BILLION] comes from
    [synchronization.h], which is not part of the sources at hand; the spec
    gives the nominal length of a second as 1_000_000_000 ns. *)
Definition BILLION : Z := 1000000000.

Definition PERIOD : Z := 1.
Definition MIN : Z := 60.
Definition TEN_MIN : Z := 600.
Definition OFFSET : Z := 2.

(** Locals of [main] that are never assigned after their initialisation. *)
Definition trig_period : Z := PERIOD.
Definition drift_period : Z := 61.
Definition sync_period : Z := 301.

(** ** Time representation *)

Record timespec := mkTimespec { tv_sec : Z; tv_nsec : Z }.

Record itimerspec := mkItimerspec { it_interval : timespec; it_value : timespec }.

Record timeinfo := mkTimeinfo { T_skew_n : Z; T_start_n : Z }.

(** Modelled from the spec: [as_timespec] is declared in [synchronization.h]
    and defined outside the sources at hand.  The spec's time conversion is
    exact, its nanosecond component always lies in [0, 1_000_000_000), and a
    negative count is outside its contract. *)
Definition as_timespec (ns : Z) : timespec :=
  {| tv_sec := ns / BILLION; tv_nsec := ns mod BILLION |}.

(** Modelled from the spec: [as_nsec], the inverse conversion, same origin. *)
Definition as_nsec (t : timespec) : Z :=
  add64 (mul64 (tv_sec t) BILLION) (tv_nsec t).

(** ** Kernel timers

    [timer_create] and [timer_settime] belong to the operating system.  A
    timer is absent until created, and created timers are disarmed or armed
    with the [itimerspec] last accepted by [timer_settime].  An all-zero
    [it_interval] makes the timer one-shot. *)

Inductive timer_name := cameraTimer | syncTimer | driftTimer.

Inductive timer_state :=
| NotCreated
| Disarmed
| Armed (its : itimerspec).

Definition timespec_valid (t : timespec) : bool :=
  (0 <=? tv_sec t) && (0 <=? tv_nsec t) && (tv_nsec t <? BILLION).

Definition timespec_is_zero (t : timespec) : bool :=
  (tv_sec t =? 0) && (tv_nsec t =? 0).

(** [timer_create (CLOCK_MONOTONIC, &te, id)]: a fresh, disarmed timer when
    the kernel returns 0, no change otherwise. *)
Definition timer_create (os_ret : Z) (t : timer_state) : Z * timer_state :=
  if os_ret =? 0 then (0, Disarmed) else (os_ret, t).

(** [timer_settime (id, TIMER_ABSTIME, its, NULL)]: returns -1 on a timer that
    was never created, on a malformed [timespec] (EINVAL) and whenever the
    kernel refuses ([os_ok = false]); otherwise returns 0, and a zero
    [it_value] disarms. *)
Definition timer_settime (os_ok : bool) (t : timer_state) (its : itimerspec)
  : Z * timer_state :=
  match t with
  | NotCreated => (-1, NotCreated)
  | _ =>
      if os_ok && timespec_valid (it_value its) && timespec_valid (it_interval its)
      then (0, if timespec_is_zero (it_value its) then Disarmed else Armed its)
      else (-1, t)
  end.

(** What is left of a timer once it has expired. *)
Definition after_expiry (t : timer_state) : timer_state :=
  match t with
  | Armed its => if timespec_is_zero (it_interval its) then Disarmed else Armed its
  | _ => t
  end.

Definition is_armed (t : timer_state) : bool :=
  match t with Armed _ => true | _ => false end.

(** ** Observable actions

    Console output ([printf], [std::cout], [perror]; the newline that ends a
    message is left out) and calls to the collaborators. *)

Inductive event :=
| EvPrint (msg : string)
| EvPrintNum (label : string) (vals : list Z)
| EvPeripheralInit
| EvTriggerOn
| EvTriggerOff
| EvLoggerOpen (name : string)
| EvLoggerLog (now_n : Z) (t_rtc : string)
| EvSynchronize (is_sync : Z)
| EvGetSkew
| EvUsleep (usec : Z)
| EvExit (status : Z).

(** ** Program state *)

Record state := mkState {
  (* file-scope variables *)
  count : Z;
  fSync : Z;
  fDrift : Z;
  T_skew_prev : Z;
  T_skew_now : Z;
  cameraTimerID : timer_state;
  syncTimerID : timer_state;
  driftTimerID : timer_state;
  (* locals of main that live across the iterations of its loop *)
  T_trig_n : Z;
  T_sync_n : Z;
  T_drift_n : Z;
  server_sec : Z;
  TI : timeinfo;
  (* calls to the collaborators and console output, most recent first *)
  trace : list event
}.

Definition set_count (v : Z) (s : state) : state :=
  mkState v (fSync s) (fDrift s) (T_skew_prev s) (T_skew_now s)
    (cameraTimerID s) (syncTimerID s) (driftTimerID s)
    (T_trig_n s) (T_sync_n s) (T_drift_n s) (server_sec s) (TI s) (trace s).

Definition set_fSync (v : Z) (s : state) : state :=
  mkState (count s) v (fDrift s) (T_skew_prev s) (T_skew_now s)
    (cameraTimerID s) (syncTimerID s) (driftTimerID s)
    (T_trig_n s) (T_sync_n s) (T_drift_n s) (server_sec s) (TI s) (trace s).

Definition set_fDrift (v : Z) (s : state) : state :=
  mkState (count s) (fSync s) v (T_skew_prev s) (T_skew_now s)
    (cameraTimerID s) (syncTimerID s) (driftTimerID s)
    (T_trig_n s) (T_sync_n s) (T_drift_n s) (server_sec s) (TI s) (trace s).

Definition set_T_skew_prev (v : Z) (s : state) : state :=
  mkState (count s) (fSync s) (fDrift s) v (T_skew_now s)
    (cameraTimerID s) (syncTimerID s) (driftTimerID s)
    (T_trig_n s) (T_sync_n s) (T_drift_n s) (server_sec s) (TI s) (trace s).

Definition set_T_skew_now (v : Z) (s : state) : state :=
  mkState (count s) (fSync s) (fDrift s) (T_skew_prev s) v
    (cameraTimerID s) (syncTimerID s) (driftTimerID s)
    (T_trig_n s) (T_sync_n s) (T_drift_n s) (server_sec s) (TI s) (trace s).

Definition timer_of (t : timer_name) (s : state) : timer_state :=
  match t with
  | cameraTimer => cameraTimerID s
  | syncTimer => syncTimerID s
  | driftTimer => driftTimerID s
  end.

Definition set_timer (t : timer_name) (v : timer_state) (s : state) : state :=
  match t with
  | cameraTimer =>
      mkState (count s) (fSync s) (fDrift s) (T_skew_prev s) (T_skew_now s)
        v (syncTimerID s) (driftTimerID s)
        (T_trig_n s) (T_sync_n s) (T_drift_n s) (server_sec s) (TI s) (trace s)
  | syncTimer =>
      mkState (count s) (fSync s) (fDrift s) (T_skew_prev s) (T_skew_now s)
        (cameraTimerID s) v (driftTimerID s)
        (T_trig_n s) (T_sync_n s) (T_drift_n s) (server_sec s) (TI s) (trace s)
  | driftTimer =>
      mkState (count s) (fSync s) (fDrift s) (T_skew_prev s) (T_skew_now s)
        (cameraTimerID s) (syncTimerID s) v
        (T_trig_n s) (T_sync_n s) (T_drift_n s) (server_sec s) (TI s) (trace s)
  end.

Definition set_T_trig_n (v : Z) (s : state) : state :=
  mkState (count s) (fSync s) (fDrift s) (T_skew_prev s) (T_skew_now s)
    (cameraTimerID s) (syncTimerID s) (driftTimerID s)
    v (T_sync_n s) (T_drift_n s) (server_sec s) (TI s) (trace s).

Definition set_T_sync_n (v : Z) (s : state) : state :=
  mkState (count s) (fSync s) (fDrift s) (T_skew_prev s) (T_skew_now s)
    (cameraTimerID s) (syncTimerID s) (driftTimerID s)
    (T_trig_n s) v (T_drift_n s) (server_sec s) (TI s) (trace s).

Definition set_T_drift_n (v : Z) (s : state) : state :=
  mkState (count s) (fSync s) (fDrift s) (T_skew_prev s) (T_skew_now s)
    (cameraTimerID s) (syncTimerID s) (driftTimerID s)
    (T_trig_n s) (T_sync_n s) v (server_sec s) (TI s) (trace s).

Definition set_server_sec (v : Z) (s : state) : state :=
  mkState (count s) (fSync s) (fDrift s) (T_skew_prev s) (T_skew_now s)
    (cameraTimerID s) (syncTimerID s) (driftTimerID s)
    (T_trig_n s) (T_sync_n s) (T_drift_n s) v (TI s) (trace s).

Definition set_TI (v : timeinfo) (s : state) : state :=
  mkState (count s) (fSync s) (fDrift s) (T_skew_prev s) (T_skew_now s)
    (cameraTimerID s) (syncTimerID s) (driftTimerID s)
    (T_trig_n s) (T_sync_n s) (T_drift_n s) (server_sec s) v (trace s).

Definition log_event (e : event) (s : state) : state :=
  mkState (count s) (fSync s) (fDrift s) (T_skew_prev s) (T_skew_now s)
    (cameraTimerID s) (syncTimerID s) (driftTimerID s)
    (T_trig_n s) (T_sync_n s) (T_drift_n s) (server_sec s) (TI s) (e :: trace s).

(** The state at the entry of [main]: zero-initialised globals, no timer,
    [server_sec = BILLION] and [TI = {0, 0}].  The other locals of [main] are
    assigned before they are read. *)
Definition initial_state : state :=
  {| count := 0; fSync := 0; fDrift := 0; T_skew_prev := 0; T_skew_now := 0;
     cameraTimerID := NotCreated; syncTimerID := NotCreated;
     driftTimerID := NotCreated;
     T_trig_n := 0; T_sync_n := 0; T_drift_n := 0;
     server_sec := BILLION;
     TI := {| T_skew_n := 0; T_start_n := 0 |};
     trace := [] |}.

(** ** The state-and-exit monad *)

Inductive result (A : Type) : Type :=
| Ret (a : A) (s : state)
| Exited (status : Z) (s : state)
| Undef (s : state).

Arguments Ret {A} a s.
Arguments Exited {A} status s.
Arguments Undef {A} s.

Definition M (A : Type) : Type := state -> result A.

Definition ret {A} (a : A) : M A := fun s => Ret a s.

Definition bind {A B} (m : M A) (k : A -> M B) : M B :=
  fun s =>
    match m s with
    | Ret a s' => k a s'
    | Exited status s' => Exited status s'
    | Undef s' => Undef s'
    end.

Definition get : M state := fun s => Ret s s.
Definition gets {A} (f : state -> A) : M A := fun s => Ret (f s) s.
Definition modify (f : state -> state) : M unit := fun s => Ret tt (f s).
Definition emit (e : event) : M unit := modify (log_event e).

(** [exit(status)] *)
Definition exit {A} (status : Z) : M A :=
  fun s => Exited status (log_event (EvExit status) s).

(** A step whose behaviour the C++ standard does not define. *)
Definition undefined {A} : M A := fun s => Undef s.

Declare Scope prog_scope.
Delimit Scope prog_scope with prog.
Notation "x <- m ;; k" := (bind m (fun x => k))
  (at level 61, m at next level, right associativity) : prog_scope.
Notation "m ;; k" := (bind m (fun _ => k))
  (at level 61, right associativity) : prog_scope.
Open Scope prog_scope.

Definition when (c : bool) (m : M unit) : M unit := if c then m else ret tt.

(** ** Replies of the collaborators *)

(** Return values of the three system calls of [makeTimer]. *)
Record timer_os := mkTimerOs {
  sigaction_ret : Z;
  timer_create_ret : Z;
  settime_accepted : bool
}.

(** What the environment answers during the start-up of [main]. *)
Record startup_env := mkStartupEnv {
  peripheral_init_ret : Z;
  first_sync : option timeinfo;
  trigger_timer_os : timer_os;
  drift_timer_os : timer_os;
  sync_timer_os : timer_os
}.

(** What the environment answers while the [if (fSync)] block runs. *)
Record sync_env := mkSyncEnv {
  sync_reply : option timeinfo;
  sync_settime_camera : bool;
  sync_settime_drift : bool
}.

(** What the environment answers while the [if (fDrift)] block runs. *)
Record drift_env := mkDriftEnv {
  skew_reply : option Z;
  drift_settime_camera : bool;
  drift_settime_sync : bool
}.

Record loop_env := mkLoopEnv { on_sync : sync_env; on_drift : drift_env }.

(** Modelled from the spec: [synchronize] is the full synchronization of the
    remote clock adapter, defined outside the sources at hand.  On success it
    yields a [timeinfo] (skew sample and remote-aligned start time) and
    returns 0; on failure it returns -1, the value its callers test. *)
Definition synchronize (reply : option timeinfo) (is_sync : Z) : M Z :=
  emit (EvSynchronize is_sync) ;;
  match reply with
  | Some info => modify (set_TI info) ;; ret 0
  | None => ret (-1)
  end.

(** Modelled from the spec: [get_skew] is the skew-only sample of the remote
    clock adapter, defined outside the sources at hand.  On success it
    refreshes the skew of the [timeinfo] and nothing else, and returns 0; on
    failure it returns -1. *)
Definition get_skew (reply : option Z) : M Z :=
  emit EvGetSkew ;;
  match reply with
  | Some skew =>
      s <- get ;;
      modify (set_TI {| T_skew_n := skew; T_start_n := T_start_n (TI s) |}) ;;
      ret 0
  | None => ret (-1)
  end.

(** ** The program *)

(** [std::string::pop_back] *)
Fixpoint pop_back (s : string) : string :=
  match s with
  | EmptyString => EmptyString
  | String c EmptyString => EmptyString
  | String c rest => String c (pop_back rest)
  end.

(** [triggerCamera], lines 100-114.  [clock] is what [clock_gettime
    (CLOCK_MONOTONIC, &now)] reads; the two sensor values passed to the logger
    are the constants [0.f]. *)
Definition triggerCamera (clock : timespec) : M unit :=
  emit EvTriggerOn ;;
  let now_n := as_nsec clock in
  let t_rtc := pop_back "abc" in
  emit (EvLoggerLog now_n t_rtc) ;;
  emit EvTriggerOff ;;
  s <- get ;;
  modify (set_count (wrap32 (count s + 1))).

(** [timer_handler], lines 76-97: the signal carries the address of one of the
    three timer identifiers. *)
Definition timer_handler (t : timer_name) (clock : timespec) : M unit :=
  match t with
  | cameraTimer => triggerCamera clock
  | syncTimer => modify (set_fSync 1)
  | driftTimer => modify (set_fDrift 1)
  end.

(** [setup], lines 117-128. *)
Definition setup (init_ret : Z) : M unit :=
  emit EvPeripheralInit ;;
  if init_ret =? -1 then
    emit (EvPrint "error connecting to peripherals")
  else
    emit (EvLoggerOpen "changeme.csv").

(** [makeTimer], lines 131-168. *)
Definition makeTimer (os : timer_os) (name : string) (t : timer_name)
    (T_start : timespec) (it_sec it_nsec : Z) : M Z :=
  let tim_spec :=
    {| it_interval := {| tv_sec := it_sec; tv_nsec := it_nsec |};
       it_value := T_start |} in
  emit (EvPrintNum "ST: " [tv_sec T_start; tv_nsec T_start]) ;;
  emit (EvPrintNum "IT: " [it_sec; it_nsec]) ;;
  if sigaction_ret os =? -1 then
    emit (EvPrint ("Minions: Failed to setup signal handling for " ++ name ++ ".")) ;;
    ret (-1)
  else
    s <- get ;;
    let '(created, t1) := timer_create (timer_create_ret os) (timer_of t s) in
    modify (set_timer t t1) ;;
    if negb (created =? 0) then
      emit (EvPrint "timer_create") ;;
      ret (-1)
    else
      let '(armed, t2) := timer_settime (settime_accepted os) t1 tim_spec in
      modify (set_timer t t2) ;;
      if negb (armed =? 0) then
        emit (EvPrint "timer_settime") ;;
        ret (-1)
      else ret 0.

(** [resetTimer], lines 170-178. *)
Definition resetTimer (os_ok : bool) (t : timer_name) (T_start : timespec)
    (t_nsec : Z) : M unit :=
  let it_sec := wrap32 (div64 t_nsec BILLION) in
  let it_nsec := wrap32 (rem64 t_nsec BILLION) in
  let tim_spec :=
    {| it_interval := {| tv_sec := it_sec; tv_nsec := it_nsec |};
       it_value := T_start |} in
  s <- get ;;
  let '(r, t') := timer_settime os_ok (timer_of t s) tim_spec in
  modify (set_timer t t') ;;
  when (negb (r =? 0)) (emit (EvPrint "timer_settime")).

(** Line 318: [double((T_skew_now - T_skew_prev)/drift_period + BILLION)].
    The quotient is taken between a [long long] and an [int]: an integer
    division, converted to [double] afterwards. *)
Definition server_period (skew_prev skew_now : Z) : Double.double :=
  Double.of_int (add64 (div64 (sub64 skew_now skew_prev) drift_period) BILLION).

(** Line 319:
    [(long long) (double(BILLION) * (double(BILLION) / server_period))]. *)
Definition corrected_server_sec (skew_prev skew_now : Z) : option Z :=
  Double.to_int64
    (Double.mul (Double.of_int BILLION)
       (Double.div (Double.of_int BILLION) (server_period skew_prev skew_now))).

(** [main], lines 180-227: everything before the loop. *)
Definition main_startup (env : startup_env) : M unit :=
  modify (set_server_sec BILLION) ;;
  setup (peripheral_init_ret env) ;;
  modify (set_TI {| T_skew_n := 0; T_start_n := 0 |}) ;;
  r <- synchronize (first_sync env) 1 ;;
  (if r =? -1 then emit (EvPrint "Sychronization error") ;; exit 1 else ret tt) ;;
  (* Trigger *)
  s <- get ;;
  let T_trig := as_timespec (T_start_n (TI s)) in
  emit (EvPrintNum "" [tv_nsec T_trig]) ;;
  status <- makeTimer (trigger_timer_os env) "Trigger Timer" cameraTimer
              T_trig PERIOD 0 ;;
  emit (EvPrintNum "status: " [status]) ;;
  modify (set_T_trig_n (T_start_n (TI s))) ;;
  modify (set_T_skew_now (T_skew_n (TI s))) ;;
  (* Drift *)
  s <- get ;;
  modify (set_T_drift_n
            (add64 (add64 (T_trig_n s) (mul64 drift_period (server_sec s)))
                   (div64 (server_sec s) OFFSET))) ;;
  s <- get ;;
  status <- makeTimer (drift_timer_os env) "Drift Timer" driftTimer
              (as_timespec (T_drift_n s)) 0 0 ;;
  emit (EvPrintNum "status: " [status]) ;;
  (* Synchronization *)
  s <- get ;;
  modify (set_T_sync_n
            (add64 (add64 (T_trig_n s) (mul64 sync_period (server_sec s)))
                   (div64 (server_sec s) OFFSET))) ;;
  s <- get ;;
  emit (EvPrintNum "" [T_sync_n s]) ;;
  status <- makeTimer (sync_timer_os env) "Sync Timer" syncTimer
              (as_timespec (T_sync_n s)) 0 0 ;;
  modify (set_T_sync_n (T_trig_n s)) ;;
  emit (EvPrintNum "status: " [status]) ;;
  emit (EvPrint "Start loopin").

(** [main], lines 242-288: the body of [if (fSync)]. *)
Definition sync_handling (env : sync_env) : M unit :=
  emit (EvPrint "synchrnoize!") ;;
  r <- synchronize (sync_reply env) 0 ;;
  (if r =? -1 then emit (EvPrint "Sychronization error") ;; exit 1 else ret tt) ;;
  s <- get ;;
  resetTimer (sync_settime_camera env) cameraTimer
    (as_timespec (T_start_n (TI s))) (mul64 (server_sec s) PERIOD) ;;
  modify (set_T_trig_n (T_start_n (TI s))) ;;
  modify (set_count 0) ;;
  modify (set_T_drift_n
            (add64 (add64 (T_start_n (TI s)) (mul64 drift_period (server_sec s)))
                   (div64 (server_sec s) OFFSET))) ;;
  s <- get ;;
  resetTimer (sync_settime_drift env) driftTimer (as_timespec (T_drift_n s)) 0 ;;
  modify (set_T_sync_n (T_start_n (TI s))) ;;
  modify (set_T_skew_now (T_skew_n (TI s))) ;;
  modify (set_fSync 0).

(** [main], lines 291-336: the body of [if (fDrift)]. *)
Definition drift_handling (env : drift_env) : M unit :=
  emit (EvPrint "Compute drifts!") ;;
  s <- get ;;
  modify (set_T_skew_prev (T_skew_now s)) ;;
  r <- get_skew (skew_reply env) ;;
  (if r =? -1 then emit (EvPrint "skew error") ;; exit 1 else ret tt) ;;
  s <- get ;;
  modify (set_T_skew_now (T_skew_n (TI s))) ;;
  s <- get ;;
  match corrected_server_sec (T_skew_prev s) (T_skew_now s) with
  | Some v => modify (set_server_sec v)
  | None => undefined
  end ;;
  s <- get ;;
  modify (set_T_trig_n
            (add64 (T_trig_n s)
                   (mul64 (wrap32 (drift_period + 1)) (server_sec s)))) ;;
  modify (set_count 0) ;;
  s <- get ;;
  resetTimer (drift_settime_camera env) cameraTimer
    (as_timespec (T_trig_n s)) (mul64 (server_sec s) PERIOD) ;;
  (* reset synchronization time with new server second *)
  modify (set_T_sync_n
            (add64 (add64 (T_sync_n s) (mul64 sync_period (server_sec s)))
                   (div64 (server_sec s) OFFSET))) ;;
  s <- get ;;
  resetTimer (drift_settime_sync env) syncTimer (as_timespec (T_sync_n s)) 0 ;;
  modify (set_fDrift 0).

(** [main], lines 231-339: one iteration of [while (1)]. *)
Definition main_loop_iteration (env : loop_env) : M unit :=
  s <- get ;;
  when (negb (fSync s =? 0)) (sync_handling (on_sync env)) ;;
  s <- get ;;
  when (negb (fDrift s =? 0)) (drift_handling (on_drift env)) ;;
  emit (EvUsleep 100000).

(** ** Runs

    Between two iterations of the loop the kernel may deliver the expiry of
    any armed timer.  A delivery runs [timer_handler] to completion; handlers
    and loop iterations do not interleave in this model. *)

Inductive input :=
| Expire (t : timer_name) (clock : timespec)
| Poll (env : loop_env).

(** The expiry of timer [t]: nothing happens unless it is armed; a one-shot
    timer is disarmed by its expiry. *)
Definition deliver (t : timer_name) (clock : timespec) : M unit :=
  s <- get ;;
  if is_armed (timer_of t s) then
    modify (set_timer t (after_expiry (timer_of t s))) ;;
    timer_handler t clock
  else ret tt.

Definition step (i : input) : M unit :=
  match i with
  | Expire t clock => deliver t clock
  | Poll env => main_loop_iteration env
  end.

Fixpoint run (ins : list input) : M unit :=
  match ins with
  | [] => ret tt
  | i :: rest => step i ;; run rest
  end.

(** [main]: start-up, then the loop driven by the inputs [ins]. *)
Definition main (env : startup_env) (ins : list input) : result unit :=
  (main_startup env ;; run ins) initial_state.

(** ** Vocabulary of the properties *)

Definition state_of {A} (r : result A) : state :=
  match r with
  | Ret _ s => s
  | Exited _ s => s
  | Undef s => s
  end.

(** The estimate in the words of the specification: [v] is an integer
    nearest to [1e18 / (d / drift_period + 1e9)], the quotient
    [d / drift_period] being a real number.  Multiplied through by
    [drift_period], [v] is nearest to [drift_period * 1e18 / (d +
    drift_period * 1e9)]; whatever the rule for ties, that is the inequality
    below. *)
Definition spec_nearest_estimate (d v : Z) : Prop :=
  2 * Z.abs (v * (d + drift_period * BILLION) - drift_period * 10 ^ 18)
  <= Z.abs (d + drift_period * BILLION).

(** The same quotient with both of the code's truncations: the skew delta
    divided by [drift_period] as C++ divides integers, and the integer part
    of the result. *)
Definition truncated_estimate (d : Z) : Z :=
  10 ^ 18 / (Z.quot d drift_period + BILLION).

(** [estimate_agrees b e18 n x]: for each of the [n] divisors [x, x+1, ...]
    the expression of line 319, with [b] for [double(BILLION)] and the
    divisor converted to [double], is the integer part of [e18 / x]. *)
Fixpoint estimate_agrees (b : Double.double) (e18 : Z) (n : nat) (x : Z) : bool :=
  match n with
  | O => true
  | S n' =>
      match Double.to_int64 (Double.mul b (Double.div b (Double.of_int x))) with
      | Some v => v =? e18 / x
      | None => false
      end && estimate_agrees b e18 n' (x + 1)
  end.

(** Calls to the remote clock adapter found in a trace. *)
Definition is_skew_sample (e : event) : bool :=
  match e with EvGetSkew => true | _ => false end.

Definition is_full_sync (e : event) : bool :=
  match e with EvSynchronize _ => true | _ => false end.

(** The full synchronizations made from the loop pass [is_sync = 0]. *)
Definition is_resync (e : event) : bool :=
  match e with EvSynchronize 0 => true | _ => false end.

Definition occurrences (p : event -> bool) (tr : list event) : nat :=
  List.length (filter p tr).

Definition flag_weight (f : Z) : nat := if f =? 0 then 0%nat else 1%nat.

Definition timer_weight (t : timer_state) : nat :=
  if is_armed t then 1%nat else 0%nat.

Definition one_shot (t : timer_state) : Prop :=
  match t with
  | Armed its => timespec_is_zero (it_interval its) = true
  | _ => True
  end.

(** Every skew sample is paid for by one arming of the drift timer, and the
    drift timer is armed by the start-up and by the full synchronizations of
    the loop only. *)
Definition drift_budget (s : state) : Prop :=
  (occurrences is_skew_sample (trace s) + flag_weight (fDrift s)
   + timer_weight (driftTimerID s)
   <= 1 + occurrences is_resync (trace s))%nat
  /\ one_shot (driftTimerID s).

Definition samples_bounded (s : state) : Prop :=
  (occurrences is_skew_sample (trace s)
   <= 1 + occurrences is_resync (trace s))%nat.

(** ** Sample environments *)

Definition os_ok : timer_os :=
  {| sigaction_ret := 0; timer_create_ret := 0; settime_accepted := true |}.

Definition startup_with (init_ret : Z) (reply : option timeinfo) : startup_env :=
  {| peripheral_init_ret := init_ret; first_sync := reply;
     trigger_timer_os := os_ok; drift_timer_os := os_ok; sync_timer_os := os_ok |}.

Definition sync_with (reply : option timeinfo) : sync_env :=
  {| sync_reply := reply; sync_settime_camera := true; sync_settime_drift := true |}.

Definition drift_with (reply : option Z) : drift_env :=
  {| skew_reply := reply; drift_settime_camera := true; drift_settime_sync := true |}.

Definition poll_with (sync : option timeinfo) (skew : option Z) : input :=
  Poll {| on_sync := sync_with sync; on_drift := drift_with skew |}.

(** A clock reading, for the expiries of the examples. *)
Definition some_clock : timespec := {| tv_sec := 100; tv_nsec := 0 |}.

(** Ten seconds after the epoch of the monotonic clock, no skew. *)
Definition first_info : timeinfo :=
  {| T_skew_n := 0; T_start_n := 10 * BILLION |}.

(** ** Vocabulary of the proofs *)

(** Messages appended to the trace, oldest last. *)
Definition log_events (tr : list event) (s : state) : state :=
  mkState (count s) (fSync s) (fDrift s) (T_skew_prev s) (T_skew_now s)
    (cameraTimerID s) (syncTimerID s) (driftTimerID s)
    (T_trig_n s) (T_sync_n s) (T_drift_n s) (server_sec s) (TI s)
    (tr ++ trace s).

(** Console output, as opposed to calls to a collaborator. *)
Definition is_output (e : event) : bool :=
  match e with
  | EvPrint _ => true
  | EvPrintNum _ _ => true
  | _ => false
  end.

(** What holds of the state a computation ends in: [Q] when it returns, [E]
    when it leaves through [exit] or through undefined behaviour. *)
Definition outcome {A} (r : result A) (Q E : state -> Prop) : Prop :=
  match r with
  | Ret _ s => Q s
  | Exited _ s => E s
  | Undef s => E s
  end.

(** The kernel accepts the three system calls of [makeTimer]. *)
Definition os_accepts (os : timer_os) : Prop :=
  sigaction_ret os <> -1 /\ timer_create_ret os = 0 /\ settime_accepted os = true.

(** ** Vocabulary of the further properties *)

(** Calls to the peripheral and the logger found in a trace. *)
Definition is_trigger_on (e : event) : bool :=
  match e with EvTriggerOn => true | _ => false end.

Definition is_trigger_off (e : event) : bool :=
  match e with EvTriggerOff => true | _ => false end.

Definition is_logger_log (e : event) : bool :=
  match e with EvLoggerLog _ _ => true | _ => false end.

(** A timer that [timer_create] has produced. *)
Definition is_created (t : timer_state) : bool :=
  match t with NotCreated => false | _ => true end.

(** The mirror image of [drift_budget]: every full synchronization made from
    the loop is paid for by one arming of the sync timer, which the start-up
    and the drift block alone arm. *)
Definition sync_budget (s : state) : Prop :=
  (occurrences is_resync (trace s) + flag_weight (fSync s)
   + timer_weight (syncTimerID s)
   <= 1 + occurrences is_skew_sample (trace s))%nat
  /\ one_shot (syncTimerID s).

Definition resyncs_bounded (s : state) : Prop :=
  (occurrences is_resync (trace s)
   <= 1 + occurrences is_skew_sample (trace s))%nat.

(** The exposure bracket is closed: as many trigger-off calls and log records
    as trigger-on calls. *)
Definition bracket_closed (s : state) : Prop :=
  occurrences is_trigger_off (trace s) = occurrences is_trigger_on (trace s) /\
  occurrences is_logger_log (trace s) = occurrences is_trigger_on (trace s).

(** The globals and the variables of [main], without the kernel's timers and
    without the trace. *)
Definition variables (s : state) : state :=
  mkState (count s) (fSync s) (fDrift s) (T_skew_prev s) (T_skew_now s)
    NotCreated NotCreated NotCreated
    (T_trig_n s) (T_sync_n s) (T_drift_n s) (server_sec s) (TI s) [].

(** Two computations end the same way, with the same value or status and the
    same [variables]. *)
Definition agree {A} (r1 r2 : result A) : Prop :=
  match r1, r2 with
  | Ret a s1, Ret b s2 => a = b /\ variables s1 = variables s2
  | Exited a s1, Exited b s2 => a = b /\ variables s1 = variables s2
  | Undef s1, Undef s2 => variables s1 = variables s2
  | _, _ => False
  end.

(** The counter [count] is an [int] that never runs ahead of the exposures
    taken. *)
Definition exposures_counted (s : state) : Prop :=
  bracket_closed s /\
  - 2147483648 <= count s < 2147483648 /\
  count s <= Z.of_nat (occurrences is_trigger_on (trace s)).

(** The replies [main] hands to [makeTimer] for each of the three timers. *)
Definition startup_os (env : startup_env) (t : timer_name) : timer_os :=
  match t with
  | cameraTimer => trigger_timer_os env
  | driftTimer => drift_timer_os env
  | syncTimer => sync_timer_os env
  end.


(** The two calls of [setup]. *)
Definition is_peripheral_init (e : event) : bool :=
  match e with EvPeripheralInit => true | _ => false end.

Definition is_logger_open (e : event) : bool :=
  match e with EvLoggerOpen _ => true | _ => false end.

Definition is_setup_call (e : event) : bool :=
  is_peripheral_init e || is_logger_open e.

(** * Properties *)

(** ** Powers of two *)

Section Pow2.
Lemma pow2_pos k : 0 <= k -> 0 < 2 ^ k.
Proof. intros; apply Z.pow_pos_nonneg; lia. Qed.
Lemma pow2_nonneg k : 0 <= 2 ^ k.
Proof. apply Z.pow_nonneg; lia. Qed.
Lemma pow2_mono a b : a <= b -> 2 ^ a <= 2 ^ b.
Proof.
  intros H. destruct (Z_lt_le_dec a 0) as [Ha|Ha].
  - rewrite (Z.pow_neg_r 2 a Ha). apply pow2_nonneg.
  - apply Z.pow_le_mono_r; lia.
Qed.
Lemma pow2_split a b : 0 <= a -> 0 <= b -> 2 ^ (a + b) = 2 ^ a * 2 ^ b.
Proof. intros; apply Z.pow_add_r; lia. Qed.
Lemma pow2_lt_inv a b : 2 ^ a < 2 ^ b -> a < b.
Proof.
  intros H. destruct (Z_lt_le_dec a b) as [|Hle]; [assumption|].
  apply pow2_mono in Hle. lia.
Qed.
Lemma pow2_ge1_inv a : 1 <= 2 ^ a -> 0 <= a.
Proof.
  intros H. destruct (Z_lt_le_dec a 0) as [Ha|]; [|assumption].
  rewrite (Z.pow_neg_r 2 a Ha) in H. lia.
Qed.
End Pow2.

Lemma digits2_bounds p :
  2 ^ (Zpos (digits2_pos p) - 1) <= Zpos p < 2 ^ Zpos (digits2_pos p).
Proof.
  induction p as [p IH|p IH|]; cbn [digits2_pos].
  - rewrite Pos2Z.inj_succ. replace (Z.succ (Zpos (digits2_pos p)) - 1) with ((Zpos (digits2_pos p) - 1) + 1) by lia.
    rewrite Z.pow_succ_r by lia.
    destruct (Z.eq_dec (Zpos (digits2_pos p)) 1) as [E|E].
    + rewrite E in *. cbn in *. lia.
    + rewrite pow2_split by lia. change (2 ^ 1) with 2. lia.
  - rewrite Pos2Z.inj_succ. replace (Z.succ (Zpos (digits2_pos p)) - 1) with ((Zpos (digits2_pos p) - 1) + 1) by lia.
    rewrite Z.pow_succ_r by lia.
    rewrite pow2_split by lia. change (2 ^ 1) with 2. lia.
  - cbn. lia.
Qed.

Lemma iter_pos_invariant {A} (f : A -> A) (P : Z -> A -> Prop) :
  (forall k x, 0 <= k -> P k x -> P (k + 1) (f x)) ->
  forall p k x, 0 <= k -> P k x -> P (k + Zpos p) (iter_pos f p x).
Proof.
  intros Hstep. induction p as [p IH|p IH|]; intros k x Hk Hx; cbn [iter_pos].
  - replace (k + Zpos p~1) with ((k + 1 + Zpos p) + Zpos p) by lia.
    apply IH; [lia|]. apply IH; [lia|]. now apply Hstep.
  - replace (k + Zpos p~0) with ((k + Zpos p) + Zpos p) by lia.
    apply IH; [lia|]. now apply IH.
  - now apply Hstep.
Qed.

Lemma shr_1_m r : 0 <= shr_m r -> shr_m (shr_1 r) = shr_m r / 2.
Proof.
  destruct r as [m r s]; cbn [shr_m shr_1]. intros Hm.
  destruct m as [|[p|p|]|p]; cbn [shr_m]; try lia.
  - reflexivity.
  - rewrite Pos2Z.inj_xI. apply Z.div_unique with 1; lia.
  - rewrite Pos2Z.inj_xO. apply Z.div_unique with 0; lia.
  - reflexivity.
Qed.

Lemma shr_1_exact r :
  0 <= shr_m r -> shr_r r = false -> shr_s r = false -> shr_m r mod 2 = 0 ->
  shr_r (shr_1 r) = false /\ shr_s (shr_1 r) = false.
Proof.
  destruct r as [m r s]; cbn [shr_m shr_r shr_s shr_1]. intros Hm -> -> Hmod.
  destruct m as [|[p|p|]|p]; cbn; try lia; auto.
  - rewrite Pos2Z.inj_xI in Hmod. rewrite Z.add_comm, Z.mul_comm, Z.mod_add in Hmod by lia. discriminate.
  - discriminate.
Qed.

Lemma shr_iter p r :
  0 <= shr_m r ->
  shr_m (iter_pos shr_1 p r) = shr_m r / 2 ^ Zpos p /\
  (shr_r r = false -> shr_s r = false -> shr_m r mod 2 ^ Zpos p = 0 ->
   shr_r (iter_pos shr_1 p r) = false /\ shr_s (iter_pos shr_1 p r) = false).
Proof.
  intros Hm.
  pose (P := fun k x =>
    shr_m x = shr_m r / 2 ^ k /\
    (shr_r r = false -> shr_s r = false -> shr_m r mod 2 ^ k = 0 ->
     shr_r x = false /\ shr_s x = false)).
  assert (H : P (0 + Zpos p) (iter_pos shr_1 p r)).
  { apply iter_pos_invariant; [|lia|].
    - intros k x Hk [Hx1 Hx2]. unfold P.
      assert (Hxm : 0 <= shr_m x) by (rewrite Hx1; apply Z.div_pos; [lia|apply pow2_pos; lia]).
      split.
      + rewrite shr_1_m by assumption. rewrite Hx1, Z.pow_add_r by lia.
        rewrite Z.div_div by (try apply pow2_pos; lia). reflexivity.
      + intros Hr Hs Hmod.
        assert (Hk2 : 0 < 2 ^ k) by (apply pow2_pos; lia).
        rewrite Z.pow_add_r in Hmod by lia. change (2 ^ 1) with 2 in Hmod.
        rewrite Z.rem_mul_r in Hmod by lia.
        assert (0 <= shr_m r mod 2 ^ k < 2 ^ k) by (apply Z.mod_pos_bound; lia).
        assert (0 <= (shr_m r / 2 ^ k) mod 2 < 2) by (apply Z.mod_pos_bound; lia).
        assert (shr_m r mod 2 ^ k = 0) by nia.
        assert ((shr_m r / 2 ^ k) mod 2 = 0) by nia.
        destruct (Hx2 Hr Hs) as [Hr' Hs']; [assumption|].
        apply shr_1_exact; auto. rewrite Hx1. assumption.
    - unfold P. split.
      + change (2 ^ 0) with 1. now rewrite Z.div_1_r.
      + auto. }
  exact H.
Qed.

Import Double.

(** Division by a power of two against power-of-two bounds. *)
Lemma div_pow2_lower m n k : 0 <= n -> 2 ^ (k + n) <= m -> 0 <= m -> 2 ^ k <= m / 2 ^ n.
Proof.
  intros Hn H Hm. destruct (Z_lt_le_dec k 0) as [Hk|Hk].
  - rewrite (Z.pow_neg_r 2 k Hk). apply Z.div_pos; [lia|apply pow2_pos; lia].
  - apply Z.div_le_lower_bound; [apply pow2_pos; lia|].
    rewrite pow2_split in H by lia. lia.
Qed.

Lemma div_pow2_upper m n k : 0 <= n -> 0 <= k -> m <= 2 ^ (k + n) -> m / 2 ^ n <= 2 ^ k.
Proof.
  intros Hn Hk H. rewrite pow2_split in H by lia.
  assert (0 < 2 ^ n) by (apply pow2_pos; lia).
  apply Z.div_le_upper_bound; [lia|]. lia.
Qed.

Lemma div_pow2_upper_strict m n k :
  0 <= n -> 0 <= k -> m <= 2 ^ (k + n) -> (m < 2 ^ (k + n) \/ m mod 2 ^ n <> 0) ->
  m / 2 ^ n < 2 ^ k.
Proof.
  intros Hn Hk H Hs. rewrite pow2_split in * by lia.
  assert (Hp : 0 < 2 ^ n) by (apply pow2_pos; lia).
  destruct Hs as [Hs|Hs].
  - apply Z.div_lt_upper_bound; lia.
  - pose proof (Z.div_mod m (2 ^ n) ltac:(lia)) as E.
    pose proof (Z.mod_pos_bound m (2 ^ n) Hp).
    assert (2 ^ n * (m / 2 ^ n) < 2 ^ n * 2 ^ k) by lia.
    apply Z.mul_lt_mono_pos_l in H1; lia.
Qed.

Lemma fexp_eq e : fexp prec emax e = fexp64 e.
Proof. reflexivity. Qed.

(** The mantissa, the exponent and the bounds after [shr_fexp]. *)
Lemma shr_fexp_between m e l a b :
  0 < m -> -1074 <= a -> a <= b -> b <= 1023 -> e <= 971 ->
  2 ^ (a - e) <= m -> m <= 2 ^ (b - e) -> (l <> loc_Exact -> m < 2 ^ (b - e)) ->
  exists r e',
    shr_fexp prec emax m e l = (r, e') /\
    0 < shr_m r /\ e' <= 971 /\
    2 ^ (a - e') <= shr_m r /\ shr_m r <= 2 ^ (b - e') /\
    (loc_of_shr_record r <> loc_Exact -> shr_m r < 2 ^ (b - e')).
Proof.
  intros Hm Ha Hab Hb He HL HU HU'.
  destruct m as [|p|p]; try lia.
  pose proof (digits2_bounds p) as [Hd1 Hd2].
  set (d := Zpos (digits2_pos p)) in *.
  assert (Hd : 1 <= d) by (unfold d; lia).
  assert (Hbe : 0 <= b - e).
  { apply pow2_ge1_inv. lia. }
  assert (Hdb : d - 1 <= b - e).
  { destruct (Z_lt_le_dec (b - e) (d - 1)) as [C|]; [|lia].
    assert (2 ^ (b - e + 1) <= 2 ^ (d - 1)) by (apply pow2_mono; lia).
    rewrite pow2_split in H by lia. assert (0 < 2 ^ (b - e)) by (apply pow2_pos; lia).
    change (2 ^ 1) with 2 in H. lia. }
  unfold shr_fexp, shr. cbn [Zdigits2]. fold d. rewrite fexp_eq. unfold fexp64.
  destruct (Z.max (d + e - 53) (-1074) - e) as [|n|n] eqn:En.
  - (* no shift *)
    exists (shr_record_of_loc (Zpos p) l), e.
    assert (Hm' : shr_m (shr_record_of_loc (Zpos p) l) = Zpos p)
      by (destruct l as [|[]]; reflexivity).
    rewrite Hm'. repeat split; try assumption; try lia.
    intros Hl. apply HU'. intros ->. now apply Hl.
  - (* shift by n > 0 *)
    assert (Hrec : shr_m (shr_record_of_loc (Zpos p) l) = Zpos p)
      by (destruct l as [|[]]; reflexivity).
    destruct (shr_iter n (shr_record_of_loc (Zpos p) l)) as [Hq Hex]; [rewrite Hrec; lia|].
    rewrite Hrec in Hq, Hex.
    eexists _, _. split; [reflexivity|].
    rewrite Hq.
    assert (Hn : 2 ^ Zpos n <= Zpos p).
    { destruct (Z.max_spec (d + e - 53) (-1074)) as [[_ E]|[_ E]]; rewrite E in En.
      - apply Z.le_trans with (2 ^ (a - e)); [apply pow2_mono; lia|assumption].
      - apply Z.le_trans with (2 ^ (d - 1)); [apply pow2_mono; lia|assumption]. }
    assert (Hp2 : 0 < 2 ^ Zpos n) by (apply pow2_pos; lia).
    assert (Hbe' : 0 <= b - (e + Zpos n)) by lia.
    split; [|split; [|split; [|split]]].
    + apply Z.div_str_pos. lia.
    + lia.
    + apply div_pow2_lower; try lia.
      replace (a - (e + Zpos n) + Zpos n) with (a - e) by lia. assumption.
    + apply div_pow2_upper; try lia.
      replace (b - (e + Zpos n) + Zpos n) with (b - e) by lia. assumption.
    + intros Hl. apply div_pow2_upper_strict; try lia.
      * replace (b - (e + Zpos n) + Zpos n) with (b - e) by lia. assumption.
      * replace (b - (e + Zpos n) + Zpos n) with (b - e) by lia.
        destruct l as [|c].
        -- right. intros Hmod. apply Hl.
           destruct Hex as [Hr Hs]; try reflexivity; try assumption.
           destruct (iter_pos shr_1 n _) as [m' r' s']; cbn in *. now rewrite Hr, Hs.
        -- left. apply HU'. discriminate.
  - (* negative difference: no shift *)
    exists (shr_record_of_loc (Zpos p) l), e.
    assert (Hm' : shr_m (shr_record_of_loc (Zpos p) l) = Zpos p)
      by (destruct l as [|[]]; reflexivity).
    rewrite Hm'. repeat split; try assumption; try lia.
    intros Hl. apply HU'. intros ->. now apply Hl.
Qed.

Lemma round_nearest_even_bounds m l :
  m <= round_nearest_even m l <= m + 1 /\
  (l = loc_Exact -> round_nearest_even m l = m).
Proof.
  destruct l as [|[]]; cbn; try destruct (Z.even m); split; try lia; try discriminate; auto.
Qed.

Lemma binary_round_aux_between mx ex lx a b :
  0 < mx -> -1074 <= a -> a <= b -> b <= 1023 -> ex <= 971 ->
  2 ^ (a - ex) <= mx -> mx <= 2 ^ (b - ex) ->
  (lx <> loc_Exact -> mx < 2 ^ (b - ex)) ->
  between a b (binary_round_aux prec emax false mx ex lx).
Proof.
  intros Hm Ha Hab Hb He HL HU HU'.
  destruct (shr_fexp_between mx ex lx a b) as (r1 & e1 & E1 & P1 & F1 & L1 & U1 & U1'); auto.
  unfold binary_round_aux. rewrite E1.
  pose proof (round_nearest_even_bounds (shr_m r1) (loc_of_shr_record r1)) as [[R1 R2] R3].
  set (m2 := round_nearest_even (shr_m r1) (loc_of_shr_record r1)) in *.
  assert (U2 : m2 <= 2 ^ (b - e1)).
  { destruct (loc_of_shr_record r1) eqn:El.
    - rewrite R3 by reflexivity. assumption.
    - assert (shr_m r1 < 2 ^ (b - e1)) by (apply U1'; discriminate). lia. }
  assert (H2 : exists r e',
    shr_fexp prec emax m2 e1 loc_Exact = (r, e') /\
    0 < shr_m r /\ e' <= 971 /\
    2 ^ (a - e') <= shr_m r /\ shr_m r <= 2 ^ (b - e') /\
    (loc_of_shr_record r <> loc_Exact -> shr_m r < 2 ^ (b - e'))).
  { apply shr_fexp_between; try assumption; try lia. intros C; now elim C. }
  destruct H2 as (r2 & e2 & E2 & P2 & F2 & L2 & U2' & _).
  rewrite E2.
  destruct (shr_m r2) as [|p|p] eqn:Em; try lia.
  replace (e2 <=? emax - prec) with true by (symmetry; apply Z.leb_le; unfold emax, prec; lia).
  exists p, e2. auto.
Qed.

Lemma iter_xO_pow p d : Zpos (Pos.iter xO p d) = Zpos p * 2 ^ Zpos d.
Proof.
  induction d as [|d IH] using Pos.peano_ind.
  - cbn. lia.
  - rewrite Pos.iter_succ, Pos2Z.inj_xO, IH, Pos2Z.inj_succ, Z.pow_succ_r by lia. lia.
Qed.

Lemma shl_align_spec mx ex ex' :
  let '(mz, ez) := shl_align mx ex ex' in
  ez <= ex /\ ez = Z.min ex ex' /\ Zpos mz = Zpos mx * 2 ^ (ex - ez).
Proof.
  unfold shl_align. destruct (ex' - ex) as [|d|d] eqn:E.
  - replace (ex - ex) with 0 by lia. cbn. lia.
  - replace (ex - ex) with 0 by lia. cbn. lia.
  - rewrite iter_xO_pow. replace (ex - ex') with (Zpos d) by lia. lia.
Qed.

Lemma of_int_between z a b :
  0 <= a -> a <= b -> b <= 971 -> 2 ^ a <= z -> z <= 2 ^ b ->
  between a b (of_int z).
Proof.
  intros Ha Hab Hb HL HU.
  assert (0 < 2 ^ a) by (apply pow2_pos; lia).
  destruct z as [|p|p]; try lia.
  unfold of_int, binary_normalize, binary_round.
  pose proof (shl_align_spec p 0 (fexp prec emax (Zpos (digits2_pos p) + 0))) as S.
  destruct (shl_align p 0 _) as [mz ez]. destruct S as (S1 & S2 & S3).
  apply binary_round_aux_between; try lia.
  - rewrite S3. replace (a - ez) with (a + (0 - ez)) by lia.
    rewrite pow2_split by lia. apply Z.mul_le_mono_nonneg_r; [apply pow2_nonneg|assumption].
  - rewrite S3. replace (b - ez) with (b + (0 - ez)) by lia.
    rewrite pow2_split by lia. apply Z.mul_le_mono_nonneg_r; [apply pow2_nonneg|assumption].
  - intros C; now elim C.
Qed.

Lemma between_exponent a b m e :
  2 ^ (a - e) <= Zpos m -> Zpos m <= 2 ^ (b - e) -> e <= b.
Proof.
  intros _ H. assert (1 <= 2 ^ (b - e)) by lia. apply pow2_ge1_inv in H0. lia.
Qed.

Lemma mul_between a b c d x y :
  -1074 <= a + c -> b + d <= 971 ->
  between a b x -> between c d y -> between (a + c) (b + d) (mul x y).
Proof.
  intros Hlo Hhi (mx & ex & -> & Lx & Ux) (my & ey & -> & Ly & Uy).
  pose proof (between_exponent _ _ _ _ Lx Ux) as Ex.
  pose proof (between_exponent _ _ _ _ Ly Uy) as Ey.
  assert (Hab : a <= b).
  { destruct (Z_lt_le_dec b a) as [C|]; [|lia].
    assert (2 ^ (b - ex + 1) <= 2 ^ (a - ex)) by (apply pow2_mono; lia).
    rewrite pow2_split in H by lia. assert (0 < 2 ^ (b - ex)) by (apply pow2_pos; lia).
    change (2 ^ 1) with 2 in H. lia. }
  assert (Hcd : c <= d).
  { destruct (Z_lt_le_dec d c) as [C|]; [|lia].
    assert (2 ^ (d - ey + 1) <= 2 ^ (c - ey)) by (apply pow2_mono; lia).
    rewrite pow2_split in H by lia. assert (0 < 2 ^ (d - ey)) by (apply pow2_pos; lia).
    change (2 ^ 1) with 2 in H. lia. }
  unfold mul, SFmul. cbn [xorb].
  apply binary_round_aux_between; try lia.
  - rewrite Pos2Z.inj_mul.
    destruct (Z_lt_le_dec (a - ex) 0) as [A|A]; destruct (Z_lt_le_dec (c - ey) 0) as [C|C].
    + rewrite Z.pow_neg_r by lia. lia.
    + apply Z.le_trans with (2 ^ (c - ey)); [apply pow2_mono; lia|]. nia.
    + apply Z.le_trans with (2 ^ (a - ex)); [apply pow2_mono; lia|]. nia.
    + replace (a + c - (ex + ey)) with ((a - ex) + (c - ey)) by lia.
      rewrite pow2_split by lia.
      apply Z.mul_le_mono_nonneg; try assumption; apply pow2_nonneg.
  - rewrite Pos2Z.inj_mul.
    replace (b + d - (ex + ey)) with ((b - ex) + (d - ey)) by lia.
    rewrite pow2_split by lia.
    apply Z.mul_le_mono_nonneg; try assumption; lia.
  - intros C; now elim C.
Qed.

Lemma new_location_inexact n r : new_location n r <> loc_Exact -> r <> 0.
Proof.
  intros H ->. apply H. unfold new_location, new_location_even, new_location_odd.
  destruct (Z.even n); reflexivity.
Qed.

Lemma between_ordered a b m e :
  2 ^ (a - e) <= Zpos m -> Zpos m <= 2 ^ (b - e) -> a <= b.
Proof.
  intros L U. pose proof (between_exponent _ _ _ _ L U).
  destruct (Z_lt_le_dec b a) as [C|]; [|lia].
  assert (2 ^ (b - e + 1) <= 2 ^ (a - e)) by (apply pow2_mono; lia).
  rewrite pow2_split in H0 by lia. assert (0 < 2 ^ (b - e)) by (apply pow2_pos; lia).
  change (2 ^ 1) with 2 in H0. lia.
Qed.

Lemma shifted_dividend m s :
  0 <= s ->
  match s with Z0 => m | Zpos _ => Z.shiftl m s | Zneg _ => 0 end = m * 2 ^ s.
Proof.
  intros Hs. destruct s as [|p|p].
  - change (2 ^ 0) with 1. lia.
  - now rewrite Z.shiftl_mul_pow2 by lia.
  - lia.
Qed.

(** Euclidean division against bounds on the dividend and the divisor. *)
Lemma mul_ge_self q p : 0 < q -> 0 <= p -> p <= q * p.
Proof. intros Hq Hp. nia. Qed.

Lemma quotient_nonneg a b q r :
  0 <= a -> 0 < b -> a = b * q + r -> 0 <= r < b -> 0 <= q.
Proof. intros Ha Hb E Hr. nia. Qed.

Lemma quotient_lower a b q r k :
  0 < b -> a = b * q + r -> 0 <= r < b -> k * b <= a -> k <= q.
Proof. intros Hb E Hr Hk. nia. Qed.

Lemma quotient_upper a b q r lo :
  0 <= q -> 0 <= lo <= b -> a = b * q + r -> 0 <= r < b ->
  q * lo <= a /\ (r <> 0 -> q * lo < a).
Proof.
  intros Hq Hlo E Hr. assert (q * lo <= q * b) by (apply Z.mul_le_mono_nonneg_l; lia).
  split; [lia|]. intros Hn. lia.
Qed.

Lemma div_between a b c d x y :
  -1074 <= a - d -> b - c <= 1023 ->
  between a b x -> between c d y -> between (a - d) (b - c) (div x y).
Proof.
  intros Hlo Hhi (m1 & e1 & -> & L1 & U1) (m2 & e2 & -> & L2 & U2).
  pose proof (between_exponent _ _ _ _ L1 U1) as Ex1.
  pose proof (between_exponent _ _ _ _ L2 U2) as Ex2.
  pose proof (between_ordered _ _ _ _ L1 U1) as O1.
  pose proof (between_ordered _ _ _ _ L2 U2) as O2.
  pose proof (digits2_bounds m1) as [D1 D1'].
  pose proof (digits2_bounds m2) as [D2 D2'].
  unfold div, SFdiv, SFdiv_core_binary. cbn [xorb Zdigits2].
  set (d1 := Zpos (digits2_pos m1)) in *.
  set (d2 := Zpos (digits2_pos m2)) in *.
  assert (Hd1 : 1 <= d1) by (unfold d1; lia).
  assert (Hd2 : 1 <= d2) by (unfold d2; lia).
  rewrite fexp_eq. unfold fexp64.
  set (e' := Z.min (Z.max (d1 + e1 - (d2 + e2) - 53) (-1074)) (e1 - e2)).
  set (s := e1 - e2 - e').
  assert (Hs : 0 <= s) by (unfold s, e'; lia).
  set (m' := match s with Z0 => Zpos m1 | Zpos _ => Z.shiftl (Zpos m1) s | Zneg _ => 0 end).
  assert (Hm' : m' = Zpos m1 * 2 ^ s) by (apply shifted_dividend; exact Hs).
  clearbody m'.
  pose proof (Z_div_mod m' (Zpos m2) ltac:(lia)) as DM.
  destruct (Z.div_eucl m' (Zpos m2)) as [q r]. destruct DM as [DM1 DM2].
  assert (Hp2s : 0 < 2 ^ s) by (apply pow2_pos; lia).
  (* d1 + e1 <= b + 1 and c + 1 <= d2 + e2 *)
  assert (Hd1b : d1 - 1 <= b - e1).
  { assert (2 ^ (d1 - 1) < 2 ^ (b - e1 + 1)).
    { rewrite (pow2_split (b - e1) 1) by lia. change (2 ^ 1) with 2.
      assert (0 < 2 ^ (b - e1)) by (apply pow2_pos; lia). lia. }
    apply pow2_lt_inv in H. lia. }
  assert (Hd2c : c - e2 < d2).
  { apply pow2_lt_inv. lia. }
  assert (He' : e' <= 970) by (unfold e'; lia).
  (* the quotient is positive *)
  assert (Hm'0 : 0 <= m') by (rewrite Hm'; apply Z.mul_nonneg_nonneg; lia).
  assert (Hq0 : 0 <= q) by (apply (quotient_nonneg m' (Zpos m2) q r); lia).
  (* lower bound *)
  assert (HL : 2 ^ (a - d - e') <= q).
  { destruct (Z_lt_le_dec (a - d - e') 0) as [N|N].
    - rewrite Z.pow_neg_r by lia. lia.
    - assert (G : 2 ^ (a - d - e') * Zpos m2 <= m').
      { apply Z.le_trans with (2 ^ (a - d - e') * 2 ^ (d - e2)).
        - apply Z.mul_le_mono_nonneg_l; [apply pow2_nonneg|assumption].
        - rewrite <- pow2_split by lia. rewrite Hm'.
          destruct (Z_lt_le_dec (a - e1) 0) as [A|A].
          + apply Z.le_trans with (2 ^ s); [apply pow2_mono; unfold s; lia|].
            apply mul_ge_self; lia.
          + replace (a - d - e' + (d - e2)) with ((a - e1) + s) by (unfold s; lia).
            rewrite pow2_split by lia.
            apply Z.mul_le_mono_nonneg_r; [lia|assumption]. }
      apply (quotient_lower m' (Zpos m2) q r); lia. }
  assert (Hq : 0 < q).
  { destruct (Z_lt_le_dec (d1 + e1 - (d2 + e2) - 1) e') as [C|C].
    - (* e' <= -1074 <= a - d *)
      assert (e' <= -1074) by (unfold e' in *; lia).
      assert (0 < 2 ^ (a - d - e')) by (apply pow2_pos; lia). lia.
    - (* the shifted dividend has more digits than the divisor *)
      assert (2 ^ d2 <= m').
      { rewrite Hm'. apply Z.le_trans with (2 ^ (d1 - 1) * 2 ^ s).
        - rewrite <- pow2_split by lia. apply pow2_mono. unfold s. lia.
        - apply Z.mul_le_mono_nonneg_r; [lia|assumption]. }
      assert (1 <= q) by (apply (quotient_lower m' (Zpos m2) q r); lia). lia. }
  (* upper bound *)
  assert (Hm'U : m' <= 2 ^ (b - e2 - e')).
  { rewrite Hm'. replace (b - e2 - e') with ((b - e1) + s) by (unfold s; lia).
    rewrite pow2_split by lia. apply Z.mul_le_mono_nonneg_r; [lia|assumption]. }
  assert (HU : q <= 2 ^ (b - c - e') /\ (r <> 0 -> q < 2 ^ (b - c - e'))).
  { destruct (Z_lt_le_dec (c - e2) 0) as [N|N].
    - assert (2 ^ (b - e2 - e') <= 2 ^ (b - c - e')) by (apply pow2_mono; lia).
      assert (G : q * 1 <= m' /\ (r <> 0 -> q * 1 < m'))
        by (apply (quotient_upper m' (Zpos m2) q r 1); lia).
      destruct G as [G1 G2].
      split; [lia|]. intros Hr. specialize (G2 Hr). lia.
    - assert (G : q * 2 ^ (c - e2) <= 2 ^ (b - e2 - e') /\
                  (r <> 0 -> q * 2 ^ (c - e2) < 2 ^ (b - e2 - e'))).
      { assert (G : q * 2 ^ (c - e2) <= m' /\ (r <> 0 -> q * 2 ^ (c - e2) < m')).
        { pose proof (pow2_nonneg (c - e2)).
          apply (quotient_upper m' (Zpos m2) q r (2 ^ (c - e2))); lia. }
        destruct G as [G1 G2].
        split; [lia|]. intros Hr. specialize (G2 Hr). lia. }
      assert (Hpc : 0 < 2 ^ (c - e2)) by (apply pow2_pos; lia).
      assert (Hbe : 0 <= b - c - e').
      { destruct (Z_lt_le_dec (b - c - e') 0) as [C|]; [|lia].
        assert (2 ^ (b - e2 - e') < 2 ^ (c - e2)).
        { destruct (Z_lt_le_dec (b - e2 - e') 0).
          - rewrite (Z.pow_neg_r 2 (b - e2 - e')) by lia. lia.
          - apply Z.pow_lt_mono_r; lia. }
        pose proof (mul_ge_self q (2 ^ (c - e2)) Hq ltac:(lia)). lia. }
      replace (b - e2 - e') with ((b - c - e') + (c - e2)) in G by lia.
      rewrite pow2_split in G by lia.
      destruct G as [G1 G2]. split.
      + apply Z.mul_le_mono_pos_r in G1; assumption.
      + intros Hr. specialize (G2 Hr). apply Z.mul_lt_mono_pos_r in G2; assumption. }
  destruct HU as [HU HU'].
  apply binary_round_aux_between; try lia.
  intros Hl. apply HU'. now apply new_location_inexact in Hl.
Qed.


Lemma to_int64_between a b x :
  0 <= a -> b <= 62 -> between a b x ->
  exists v, to_int64 x = Some v /\ 2 ^ a <= v <= 2 ^ b.
Proof.
  intros Ha Hb (m & e & -> & L & U).
  pose proof (between_exponent _ _ _ _ L U) as Ee.
  pose proof (between_ordered _ _ _ _ L U) as Oab.
  cbn [to_int64 cond_Zopp].
  assert (R : 2 ^ a <= Z.shiftl (Zpos m) e <= 2 ^ b).
  { destruct (Z_lt_le_dec e 0) as [N|N].
    - rewrite Z.shiftl_div_pow2 by lia. split.
      + apply div_pow2_lower; try lia. replace (a + - e) with (a - e) by lia. assumption.
      + apply div_pow2_upper; try lia. replace (b + - e) with (b - e) by lia. assumption.
    - rewrite Z.shiftl_mul_pow2 by lia.
      assert (0 < 2 ^ e) by (apply pow2_pos; lia). split.
      + destruct (Z_lt_le_dec a e) as [C|C].
        * apply Z.le_trans with (2 ^ e); [apply pow2_mono; lia|]. nia.
        * replace (2 ^ a) with (2 ^ (a - e) * 2 ^ e)
            by (rewrite <- pow2_split by lia; f_equal; lia).
          apply Z.mul_le_mono_nonneg_r; lia.
      + replace (2 ^ b) with (2 ^ (b - e) * 2 ^ e)
          by (rewrite <- pow2_split by lia; f_equal; lia).
        apply Z.mul_le_mono_nonneg_r; lia. }
  exists (Z.shiftl (Zpos m) e). split; [|assumption].
  assert (0 < 2 ^ a) by (apply pow2_pos; lia).
  assert (2 ^ b <= 2 ^ 62) by (apply pow2_mono; lia).
  replace (in_int64 (Z.shiftl (Zpos m) e)) with true; [reflexivity|].
  symmetry. unfold in_int64, min_int64, max_int64.
  change (2 ^ 62) with 4611686018427387904 in *.
  change (2 ^ 63) with 9223372036854775808.
  apply andb_true_iff; split; apply Z.leb_le; lia.
Qed.

Lemma wrap64_range z : - 2 ^ 63 <= wrap64 z < 2 ^ 63.
Proof.
  unfold wrap64. pose proof (Z.mod_pos_bound (z + 2 ^ 63) (2 ^ 64) ltac:(lia)).
  change (2 ^ 64) with (2 * 2 ^ 63) in *. lia.
Qed.

Lemma wrap64_id z : - 2 ^ 63 <= z < 2 ^ 63 -> wrap64 z = z.
Proof.
  intros H. unfold wrap64. rewrite Z.mod_small; [lia|].
  change (2 ^ 64) with (2 * 2 ^ 63). lia.
Qed.

Lemma billion_between : between 29 30 (of_int BILLION).
Proof.
  apply of_int_between; try lia; unfold BILLION.
  - change (2 ^ 29) with 536870912. lia.
  - change (2 ^ 30) with 1073741824. lia.
Qed.

(** The divisor of line 318 never exceeds 2^58. *)
Lemma server_period_arg_upper prev now :
  add64 (div64 (sub64 now prev) drift_period) BILLION <= 2 ^ 58.
Proof.
  unfold add64, div64, sub64, drift_period, BILLION.
  pose proof (wrap64_range (now - prev)) as R.
  set (d := wrap64 (now - prev)) in *.
  change (2 ^ 63) with 9223372036854775808 in *.
  assert (Q : - 9223372036854775808 <= Z.quot d 61 <= 9223372036854775808).
  { split.
    - destruct (Z_lt_le_dec d 0).
      + rewrite <- (Z.opp_involutive d), Z.quot_opp_l by lia.
        assert (0 <= Z.quot (- d) 61 <= - d).
        { split; [apply Z.quot_pos; lia|]. apply Z.quot_le_upper_bound; lia. }
        lia.
      + assert (0 <= Z.quot d 61) by (apply Z.quot_pos; lia). lia.
    - destruct (Z_lt_le_dec d 0).
      + rewrite <- (Z.opp_involutive d), Z.quot_opp_l by lia.
        assert (0 <= Z.quot (- d) 61) by (apply Z.quot_pos; lia). lia.
      + assert (Z.quot d 61 <= d) by (apply Z.quot_le_upper_bound; lia). lia. }
  assert (Q' : Z.quot d 61 <= 151202820276307801).
  { destruct (Z_lt_le_dec d 0).
    - rewrite <- (Z.opp_involutive d), Z.quot_opp_l by lia.
      assert (0 <= Z.quot (- d) 61) by (apply Z.quot_pos; lia). lia.
    - rewrite Z.quot_div_nonneg by lia.
      apply Z.div_le_upper_bound; lia. }
  rewrite (wrap64_id (Z.quot d 61)) by (change (2 ^ 63) with 9223372036854775808; lia).
  rewrite wrap64_id by (change (2 ^ 63) with 9223372036854775808; lia).
  change (2 ^ 58) with 288230376151711744. lia.
Qed.

Lemma corrected_server_sec_positive prev now :
  1 <= add64 (div64 (sub64 now prev) drift_period) BILLION ->
  exists v, corrected_server_sec prev now = Some v /\ 1 <= v <= 2 ^ 60.
Proof.
  intros Hx. pose proof (server_period_arg_upper prev now) as Hu.
  unfold corrected_server_sec, server_period.
  set (x := add64 (div64 (sub64 now prev) drift_period) BILLION) in *.
  assert (X : between 0 58 (of_int x)).
  { apply of_int_between; try assumption; try lia. }
  pose proof billion_between as B.
  assert (R : between (29 - 58) (30 - 0) (div (of_int BILLION) (of_int x)))
    by (apply div_between; try lia; assumption).
  assert (P : between (29 + (29 - 58)) (30 + (30 - 0))
                (mul (of_int BILLION) (div (of_int BILLION) (of_int x))))
    by (apply mul_between; try lia; assumption).
  destruct (to_int64_between (29 + (29 - 58)) (30 + (30 - 0)) _ ltac:(lia) ltac:(lia) P)
    as (v & E & Hv).
  exists v. split; [exact E|]. change (2 ^ (29 + (29 - 58))) with 1 in Hv.
  change (30 + (30 - 0)) with 60 in Hv. exact Hv.
Qed.

(** ** Machine integers, time conversion and timers *)

Lemma wrap32_id z : - 2 ^ 31 <= z < 2 ^ 31 -> wrap32 z = z.
Proof.
  intros H. unfold wrap32. rewrite Z.mod_small; [lia|].
  change (2 ^ 32) with (2 * 2 ^ 31). lia.
Qed.

Lemma max_int64_eq : max_int64 = 2 ^ 63 - 1.
Proof. reflexivity. Qed.

(** *** Time conversion *)

Lemma as_timespec_valid ns : 0 <= ns -> timespec_valid (as_timespec ns) = true.
Proof.
  intros H. unfold timespec_valid, as_timespec, BILLION. cbn [tv_sec tv_nsec].
  pose proof (Z.mod_pos_bound ns 1000000000 ltac:(lia)).
  assert (0 <= ns / 1000000000) by (apply Z.div_pos; lia).
  repeat (apply andb_true_iff; split); try apply Z.leb_le; try apply Z.ltb_lt; lia.
Qed.

Lemma as_timespec_nonzero ns : 0 < ns -> timespec_is_zero (as_timespec ns) = false.
Proof.
  intros H. unfold timespec_is_zero, as_timespec, BILLION. cbn [tv_sec tv_nsec].
  apply andb_false_iff.
  destruct (Z.eq_dec (ns / 1000000000) 0) as [E|E].
  - right. apply Z.eqb_neq. intros E'.
    pose proof (Z.div_mod ns 1000000000 ltac:(lia)). lia.
  - left. now apply Z.eqb_neq.
Qed.

(** The interval computed by [resetTimer] is the period it is given. *)
Lemma period_timespec n :
  0 <= n < 2 ^ 31 * BILLION ->
  {| tv_sec := wrap32 (div64 n BILLION); tv_nsec := wrap32 (rem64 n BILLION) |}
  = as_timespec n.
Proof.
  intros H. unfold div64, rem64, as_timespec, BILLION in *.
  change (2 ^ 31) with 2147483648 in H.
  rewrite Z.quot_div_nonneg, Z.rem_mod_nonneg by lia.
  pose proof (Z.mod_pos_bound n 1000000000 ltac:(lia)).
  assert (0 <= n / 1000000000 < 2147483648).
  { split; [apply Z.div_pos; lia|apply Z.div_lt_upper_bound; lia]. }
  rewrite !wrap64_id by (change (2 ^ 63) with 9223372036854775808; lia).
  rewrite !wrap32_id by (change (2 ^ 31) with 2147483648; lia).
  reflexivity.
Qed.

(** *** Timers *)

Lemma set_timer_same t v s : timer_of t (set_timer t v s) = v.
Proof. destruct t; reflexivity. Qed.

Lemma makeTimer_armed os name t T_start it_sec it_nsec s :
  os_accepts os ->
  timespec_valid T_start = true -> timespec_is_zero T_start = false ->
  timespec_valid {| tv_sec := it_sec; tv_nsec := it_nsec |} = true ->
  makeTimer os name t T_start it_sec it_nsec s =
  Ret 0 (set_timer t
           (Armed {| it_interval := {| tv_sec := it_sec; tv_nsec := it_nsec |};
                     it_value := T_start |})
           (set_timer t Disarmed
              (log_events [EvPrintNum "IT: " [it_sec; it_nsec];
                           EvPrintNum "ST: " [tv_sec T_start; tv_nsec T_start]] s))).
Proof.
  intros (Hs & Hc & Ha) Hv Hz Hi.
  unfold makeTimer, bind, emit, modify, get, ret.
  apply Z.eqb_neq in Hs. rewrite Hs.
  unfold timer_create. rewrite Hc. cbn.
  rewrite Ha, Hz, Hv, Hi. cbn.
  destruct t; reflexivity.
Qed.

Lemma resetTimer_armed ok t T_start t_nsec s :
  ok = true -> timer_of t s <> NotCreated ->
  timespec_valid T_start = true -> timespec_is_zero T_start = false ->
  0 <= t_nsec < 2 ^ 31 * BILLION ->
  resetTimer ok t T_start t_nsec s =
  Ret tt (set_timer t
            (Armed {| it_interval := as_timespec t_nsec; it_value := T_start |}) s).
Proof.
  intros -> Hc Hv Hz Hn.
  unfold resetTimer, bind, modify, get, when, ret.
  rewrite period_timespec by assumption.
  unfold timer_settime. cbn [it_value it_interval].
  rewrite Hv, Hz, (as_timespec_valid t_nsec) by lia. cbn [andb].
  destruct (timer_of t s) eqn:E; try congruence; reflexivity.
Qed.

(** Whatever the kernel answers, [resetTimer] returns, touches nothing but
    its timer and prints at most a diagnostic. *)
Lemma resetTimer_shape ok t T_start t_nsec s :
  exists v tr,
    resetTimer ok t T_start t_nsec s = Ret tt (log_events tr (set_timer t v s)) /\
    (v = timer_of t s \/ v = Disarmed \/
     v = Armed {| it_interval := {| tv_sec := wrap32 (div64 t_nsec BILLION);
                                   tv_nsec := wrap32 (rem64 t_nsec BILLION) |};
                  it_value := T_start |}) /\
    forallb is_output tr = true.
Proof.
  unfold resetTimer, bind, modify, get, when, ret, emit.
  set (spec := {| it_interval := _; it_value := T_start |}).
  unfold timer_settime.
  destruct (timer_of t s) eqn:E;
    [ exists NotCreated, [EvPrint "timer_settime"]
    | destruct (ok && timespec_valid (it_value spec) && timespec_valid (it_interval spec));
      [ destruct (timespec_is_zero (it_value spec));
        [ exists Disarmed, [] | exists (Armed spec), [] ]
      | exists Disarmed, [EvPrint "timer_settime"] ]
    | destruct (ok && timespec_valid (it_value spec) && timespec_valid (it_interval spec));
      [ destruct (timespec_is_zero (it_value spec));
        [ exists Disarmed, [] | exists (Armed spec), [] ]
      | exists (Armed its), [EvPrint "timer_settime"] ] ];
    (split; [destruct t; reflexivity|split; [|reflexivity]]); rewrite ?E; auto.
Qed.

(** ** Running the program symbolically *)

Arguments wrap64 : simpl never.
Arguments wrap32 : simpl never.
Arguments add64 : simpl never.
Arguments sub64 : simpl never.
Arguments mul64 : simpl never.
Arguments div64 : simpl never.
Arguments rem64 : simpl never.
Arguments as_timespec : simpl never.
Arguments as_nsec : simpl never.
Arguments makeTimer : simpl never.
Arguments resetTimer : simpl never.
Arguments corrected_server_sec : simpl never.
Arguments timespec_valid : simpl never.
Arguments timespec_is_zero : simpl never.
Arguments drift_period : simpl never.
Arguments sync_period : simpl never.
Arguments BILLION : simpl never.
Arguments PERIOD : simpl never.
Arguments OFFSET : simpl never.
Arguments Z.add : simpl never.
Arguments Z.mul : simpl never.

Arguments occurrences : simpl never.

Ltac run_prog :=
  unfold bind, emit, modify, get, gets, ret, exit, undefined, when; cbn.

(** Offsets of the drift and sync timers from the trigger origin. *)
Lemma timer_offset base period sec :
  0 <= sec -> 0 <= period -> 0 <= base ->
  base + period * sec + sec / 2 <= max_int64 ->
  add64 (add64 base (mul64 period sec)) (div64 sec OFFSET)
  = base + period * sec + sec / 2.
Proof.
  intros Hs Hp Hb Hmax. unfold add64, mul64, div64, OFFSET.
  rewrite max_int64_eq in Hmax. change (2 ^ 63) with 9223372036854775808 in Hmax.
  rewrite Z.quot_div_nonneg by lia.
  assert (0 <= sec / 2) by (apply Z.div_pos; lia).
  assert (0 <= period * sec) by nia.
  rewrite (wrap64_id (period * sec)) by (change (2 ^ 63) with 9223372036854775808; lia).
  rewrite (wrap64_id (sec / 2)) by (change (2 ^ 63) with 9223372036854775808; lia).
  rewrite (wrap64_id (base + period * sec)) by (change (2 ^ 63) with 9223372036854775808; lia).
  rewrite wrap64_id by (change (2 ^ 63) with 9223372036854775808; lia).
  reflexivity.
Qed.

Lemma mul64_period v : min_int64 <= v <= max_int64 -> mul64 v PERIOD = v.
Proof.
  intros H. unfold mul64, PERIOD. rewrite Z.mul_1_r. apply wrap64_id.
  unfold min_int64, max_int64 in H. lia.
Qed.

Ltac reset_step :=
  match goal with
  | |- context [resetTimer ?a ?b ?c ?d ?s] =>
      let v := fresh "v" in
      let tr := fresh "tr" in
      let E := fresh "E" in
      destruct (resetTimer_shape a b c d s) as (v & tr & E & _ & _);
      rewrite E; clear E
  end.

(** A sync cycle that obtains its [timeinfo] completes, whatever the kernel
    answers to the two re-armings. *)
Lemma sync_handling_completes env st info :
  sync_reply env = Some info ->
  exists st',
    sync_handling env st = Ret tt st' /\
    count st' = 0 /\ server_sec st' = server_sec st /\
    T_trig_n st' = T_start_n info /\ T_sync_n st' = T_start_n info /\
    T_skew_now st' = T_skew_n info /\ T_skew_prev st' = T_skew_prev st /\
    fSync st' = 0 /\ fDrift st' = fDrift st.
Proof.
  intros Hr. unfold sync_handling, synchronize. rewrite Hr. run_prog.
  reset_step. run_prog. reset_step. run_prog.
  eexists; split; [reflexivity|]. cbn. destruct (sync_settime_drift env); cbn; auto 10.
Qed.

(** A drift cycle that obtains its skew sample and a defined estimate
    completes, whatever the kernel answers to the two re-armings. *)
Lemma drift_handling_completes env st skew v :
  skew_reply env = Some skew ->
  corrected_server_sec (T_skew_now st) skew = Some v ->
  exists st',
    drift_handling env st = Ret tt st' /\
    count st' = 0 /\ server_sec st' = v /\
    T_skew_prev st' = T_skew_now st /\ T_skew_now st' = skew /\
    fDrift st' = 0 /\ fSync st' = fSync st /\
    driftTimerID st' = driftTimerID st.
Proof.
  intros Hr Hv. unfold drift_handling, get_skew. rewrite Hr. run_prog.
  rewrite Hv. run_prog.
  reset_step. run_prog. reset_step. run_prog.
  eexists; split; [reflexivity|]. cbn. auto 10.
Qed.

(** *** Counting calls in a trace *)

Lemma occurrences_app p tr1 tr2 :
  occurrences p (tr1 ++ tr2) = (occurrences p tr1 + occurrences p tr2)%nat.
Proof. unfold occurrences. now rewrite filter_app, length_app. Qed.

Lemma occurrences_nil p : occurrences p [] = 0%nat.
Proof. reflexivity. Qed.

Lemma occurrences_cons p e tr :
  occurrences p (e :: tr) = ((if p e then 1 else 0) + occurrences p tr)%nat.
Proof. unfold occurrences. cbn [filter]. destruct (p e); reflexivity. Qed.

Lemma occurrences_output p tr :
  (forall e, is_output e = true -> p e = false) ->
  forallb is_output tr = true -> occurrences p tr = 0%nat.
Proof.
  intros Hp. induction tr as [|e tr IH]; intros H; [reflexivity|].
  cbn [forallb] in H. apply andb_true_iff in H as [He Ht].
  rewrite occurrences_cons, (Hp e He), IH by assumption. reflexivity.
Qed.

Lemma output_not_skew_sample e : is_output e = true -> is_skew_sample e = false.
Proof. destruct e; cbn; congruence. Qed.

Lemma output_not_resync e : is_output e = true -> is_resync e = false.
Proof. destruct e; cbn; congruence. Qed.

Lemma makeTimer_shape os name t T_start it_sec it_nsec s :
  exists r v tr,
    makeTimer os name t T_start it_sec it_nsec s
    = Ret r (log_events tr (set_timer t v s)) /\
    (v = timer_of t s \/ v = Disarmed \/
     v = Armed {| it_interval := {| tv_sec := it_sec; tv_nsec := it_nsec |};
                  it_value := T_start |}) /\
    forallb is_output tr = true.
Proof.
  unfold makeTimer, bind, modify, get, ret, emit, timer_create, timer_settime.
  destruct (sigaction_ret os =? -1).
  { eexists _, (timer_of t s), [_; _; _].
    split; [destruct t; reflexivity|]. split; [auto|reflexivity]. }
  destruct (timer_create_ret os =? 0) eqn:Ec; cbn; rewrite ?Ec; cbn.
  - destruct (settime_accepted os && timespec_valid T_start
              && timespec_valid {| tv_sec := it_sec; tv_nsec := it_nsec |}); cbn.
    + destruct (timespec_is_zero T_start).
      * eexists _, Disarmed, [_; _].
        split; [destruct t; reflexivity|]. split; [auto|reflexivity].
      * eexists _, (Armed _), [_; _].
        split; [destruct t; reflexivity|]. split; [auto|reflexivity].
    + eexists _, Disarmed, [_; _; _].
      split; [destruct t; reflexivity|]. split; [auto|reflexivity].
  - eexists _, (timer_of t s), [_; _; _].
    split; [destruct t; reflexivity|]. split; [auto|reflexivity].
Qed.

Lemma outcome_bind {A B} (m : M A) (k : A -> M B) s (Q Q' E : state -> Prop) :
  outcome (m s) Q E ->
  (forall a s', Q s' -> outcome (k a s') Q' E) ->
  outcome (bind m k s) Q' E.
Proof.
  intros H Hk. unfold bind. destruct (m s) as [a s'|status s'|s']; cbn in *; auto.
Qed.

Lemma budget_samples s : drift_budget s -> samples_bounded s.
Proof. unfold drift_budget, samples_bounded. lia. Qed.

Lemma timer_weight_le_1 t : (timer_weight t <= 1)%nat.
Proof. unfold timer_weight. destruct (is_armed t); lia. Qed.

Ltac count_trace :=
  repeat (rewrite occurrences_app || rewrite occurrences_cons
          || rewrite occurrences_nil);
  rewrite ?(occurrences_output is_skew_sample) by (assumption || exact output_not_skew_sample);
  rewrite ?(occurrences_output is_resync) by (assumption || exact output_not_resync);
  cbn.

Ltac reset_shape v tr Hv Ht :=
  match goal with
  | |- context [resetTimer ?a ?b ?c ?d ?s] =>
      let E := fresh "E" in
      destruct (resetTimer_shape a b c d s) as (v & tr & E & Hv & Ht);
      rewrite E; clear E
  end.

Ltac make_shape v tr Hv Ht :=
  match goal with
  | |- context [makeTimer ?os ?n ?t ?T ?a ?b ?s] =>
      let E := fresh "E" in
      let r := fresh "r" in
      destruct (makeTimer_shape os n t T a b s) as (r & v & tr & E & Hv & Ht);
      rewrite E; clear E
  end.

Lemma startup_budget env :
  outcome (main_startup env initial_state) drift_budget samples_bounded.
Proof.
  unfold main_startup, setup, synchronize.
  destruct (peripheral_init_ret env =? -1); destruct (first_sync env) as [info|]; run_prog.
  all: try (unfold samples_bounded; cbn; count_trace; lia).
  all: make_shape v1 tr1 Hv1 Ht1; run_prog.
  all: make_shape v2 tr2 Hv2 Ht2; run_prog.
  all: make_shape v3 tr3 Hv3 Ht3; run_prog.
  all: unfold drift_budget; cbn; count_trace.
  all: cbn in Hv2; destruct Hv2 as [-> | [-> | ->]]; cbn; split; auto; lia.
Qed.

Lemma sync_handling_budget env s :
  drift_budget s -> outcome (sync_handling env s) drift_budget samples_bounded.
Proof.
  intros [Hb Ho]. unfold sync_handling, synchronize.
  destruct (sync_reply env) as [info|]; run_prog.
  - reset_shape v1 tr1 Hv1 Ht1. run_prog.
    reset_shape v2 tr2 Hv2 Ht2. run_prog.
    unfold drift_budget; cbn; count_trace.
    pose proof (timer_weight_le_1 (driftTimerID s)).
    cbn in Hv2. destruct Hv2 as [-> | [-> | ->]]; cbn; split; auto; lia.
  - unfold samples_bounded; cbn; count_trace. lia.
Qed.

Lemma flag_weight_set f : f <> 0 -> flag_weight f = 1%nat.
Proof. intros H. unfold flag_weight. apply Z.eqb_neq in H. now rewrite H. Qed.

Lemma drift_handling_budget env s :
  drift_budget s -> fDrift s <> 0 ->
  outcome (drift_handling env s) drift_budget samples_bounded.
Proof.
  intros [Hb Ho] Hf. rewrite (flag_weight_set _ Hf) in Hb.
  unfold drift_handling, get_skew.
  destruct (skew_reply env) as [skew|]; run_prog.
  - destruct (corrected_server_sec (T_skew_now s) skew) as [v|]; run_prog.
    + reset_shape v1 tr1 Hv1 Ht1. run_prog.
      reset_shape v2 tr2 Hv2 Ht2. run_prog.
      unfold drift_budget; cbn; count_trace. split; [lia|assumption].
    + unfold samples_bounded; cbn; count_trace. lia.
  - unfold samples_bounded; cbn; count_trace. lia.
Qed.

Lemma deliver_budget t clock s :
  drift_budget s -> outcome (deliver t clock s) drift_budget samples_bounded.
Proof.
  intros [Hb Ho]. unfold deliver. run_prog.
  destruct t; cbn.
  - destruct (is_armed (cameraTimerID s)); cbn.
    + unfold triggerCamera; run_prog. unfold drift_budget; cbn; count_trace. split; [lia|assumption].
    + split; assumption.
  - destruct (is_armed (syncTimerID s)); cbn.
    + unfold drift_budget; cbn. split; [lia|assumption].
    + split; assumption.
  - destruct (driftTimerID s) as [| |its] eqn:Ed; cbn.
    + unfold drift_budget. rewrite Ed. split; assumption.
    + unfold drift_budget. rewrite Ed. split; assumption.
    + cbn in Ho. rewrite Ho. unfold drift_budget; cbn.
      unfold timer_weight in *; cbn in *. split; [|exact I].
      unfold flag_weight in *. destruct (fDrift s =? 0); lia.
Qed.

Lemma loop_iteration_budget env s :
  drift_budget s -> outcome (main_loop_iteration env s) drift_budget samples_bounded.
Proof.
  intros Hs. unfold main_loop_iteration, bind at 1, get.
  apply outcome_bind with (Q := drift_budget).
  { unfold when. destruct (negb (fSync s =? 0)); [now apply sync_handling_budget|exact Hs]. }
  intros _ s1 H1. unfold bind at 1.
  apply outcome_bind with (Q := drift_budget).
  - unfold when. destruct (fDrift s1 =? 0) eqn:Ef; cbn.
    + exact H1.
    + apply drift_handling_budget; [exact H1|]. now apply Z.eqb_neq.
  - intros _ s2 [H2 H2']. unfold emit, modify, drift_budget; cbn. count_trace.
    split; assumption.
Qed.

Lemma step_budget i s :
  drift_budget s -> outcome (step i s) drift_budget samples_bounded.
Proof.
  destruct i as [t clock|env]; cbn [step].
  - apply deliver_budget.
  - apply loop_iteration_budget.
Qed.

Lemma run_budget ins : forall s,
  drift_budget s -> outcome (run ins s) drift_budget samples_bounded.
Proof.
  induction ins as [|i ins IH]; intros s Hs; cbn [run].
  - exact Hs.
  - apply outcome_bind with (Q := drift_budget); [now apply step_budget|].
    intros _ s' Hs'. now apply IH.
Qed.

(** ** The period estimate *)

Lemma quot_drift_period_ge d :
  - (drift_period * BILLION) < d -> - BILLION < Z.quot d drift_period.
Proof.
  unfold drift_period, BILLION. intros H.
  assert (Z.quot (- 60999999999) 61 <= Z.quot d 61) by (apply Z.quot_le_mono; lia).
  change (Z.quot (- 60999999999) 61) with (- 999999999) in H0. lia.
Qed.

Lemma quot_drift_period_bounds d :
  - 2 ^ 63 <= d < 2 ^ 63 ->
  - 151202820276307800 <= Z.quot d drift_period <= 151202820276307800.
Proof.
  unfold drift_period. change (2 ^ 63) with 9223372036854775808. intros H.
  assert (Z.quot (- 9223372036854775808) 61 <= Z.quot d 61
          <= Z.quot 9223372036854775808 61)
    by (split; apply Z.quot_le_mono; lia).
  change (Z.quot (- 9223372036854775808) 61) with (- 151202820276307800) in H0.
  change (Z.quot 9223372036854775808 61) with 151202820276307800 in H0.
  exact H0.
Qed.

(** Without overflow in the subtraction, the divisor of line 318 is the
    truncated quotient plus one billion. *)
Lemma server_period_arg_exact prev now :
  - 2 ^ 63 <= now - prev < 2 ^ 63 ->
  add64 (div64 (sub64 now prev) drift_period) BILLION
  = Z.quot (now - prev) drift_period + BILLION.
Proof.
  intros H. pose proof (quot_drift_period_bounds _ H) as Hq.
  unfold add64, div64, sub64, BILLION in *.
  rewrite (wrap64_id (now - prev)) by assumption.
  rewrite (wrap64_id (Z.quot _ _)) by (change (2 ^ 63) with 9223372036854775808; lia).
  apply wrap64_id. change (2 ^ 63) with 9223372036854775808. lia.
Qed.

Lemma estimate_agrees_sound b e18 n : forall x0,
  estimate_agrees b e18 n x0 = true ->
  forall x, x0 <= x < x0 + Z.of_nat n ->
  to_int64 (mul b (div b (of_int x))) = Some (e18 / x).
Proof.
  induction n as [|n IH]; intros x0 H x Hx; [lia|].
  cbn [estimate_agrees] in H. apply andb_true_iff in H as [H1 H2].
  destruct (Z.eq_dec x x0) as [->|Hne].
  - destruct (to_int64 (mul b (div b (of_int x0)))) as [v|]; [|discriminate].
    apply Z.eqb_eq in H1. now rewrite H1.
  - apply (IH (x0 + 1) H2). lia.
Qed.

Lemma billion_double : of_int BILLION = S754_finite false 8388608000000000 (-23).
Proof. vm_compute. reflexivity. Qed.

(** One millisecond of skew either way, divisor by divisor. *)
Lemma estimate_agrees_1ms :
  estimate_agrees (S754_finite false 8388608000000000 (-23)) 1000000000000000000
    (Z.to_nat 32787) 999983607 = true.
Proof. vm_cast_no_check (eq_refl true). Qed.

Lemma corrected_within_1ms prev now :
  -1000000 <= now - prev <= 1000000 ->
  corrected_server_sec prev now = Some (truncated_estimate (now - prev)).
Proof.
  intros H. unfold corrected_server_sec, server_period, truncated_estimate.
  rewrite server_period_arg_exact
    by (change (2 ^ 63) with 9223372036854775808; lia).
  rewrite billion_double. change (10 ^ 18) with 1000000000000000000.
  apply (estimate_agrees_sound _ _ _ _ estimate_agrees_1ms).
  assert (Z.quot (-1000000) 61 <= Z.quot (now - prev) 61 <= Z.quot 1000000 61)
    by (split; apply Z.quot_le_mono; lia).
  change (Z.quot (-1000000) 61) with (-16393) in H0.
  change (Z.quot 1000000 61) with 16393 in H0.
  unfold drift_period, BILLION. rewrite Z2Nat.id by lia. lia.
Qed.

Lemma corrected_equal_skews skew : corrected_server_sec skew skew = Some BILLION.
Proof.
  unfold corrected_server_sec, server_period, sub64.
  rewrite Z.sub_diag. vm_compute. reflexivity.
Qed.

Lemma corrected_positive prev now :
  - 2 ^ 63 <= now - prev < 2 ^ 63 ->
  - (drift_period * BILLION) < now - prev ->
  exists v, corrected_server_sec prev now = Some v /\ 1 <= v <= 2 ^ 60.
Proof.
  intros Hr Hd. apply corrected_server_sec_positive.
  rewrite server_period_arg_exact by assumption.
  pose proof (quot_drift_period_ge _ Hd). lia.
Qed.

(** The start-up completes as soon as the first synchronization succeeds,
    whatever the peripheral and the kernel answer. *)
Lemma startup_completes env info :
  first_sync env = Some info ->
  exists st',
    main_startup env initial_state = Ret tt st' /\
    server_sec st' = BILLION.
Proof.
  intros Hr. unfold main_startup, setup, synchronize. rewrite Hr.
  destruct (peripheral_init_ret env =? -1); run_prog.
  all: make_shape v1 tr1 Hv1 Ht1; run_prog.
  all: make_shape v2 tr2 Hv2 Ht2; run_prog.
  all: make_shape v3 tr3 Hv3 Ht3; run_prog.
  all: eexists; split; reflexivity.
Qed.

(** * The claims *)

(** C1, as stated, fails.  In the run below the drift cycle sees the skew go
    from 0 to 1_525_000 ns: the quotient by 61 is exactly 25_000 and
    1e18 / 1_000_025_000 = 999_975_000.62..., whose nearest integer is
    999_975_001, yet the new [server_sec] is 999_975_000: the code discards
    the fractional part. *)
Lemma drift_estimate_not_nearest :
  let st := state_of (main (startup_with 0 (Some first_info))
                        [Expire driftTimer some_clock;
                         poll_with None (Some 1525000)]) in
  T_skew_prev st = 0 /\ T_skew_now st = 1525000 /\
  server_sec st = 999975000 /\
  ~ spec_nearest_estimate (T_skew_now st - T_skew_prev st) (server_sec st).
Proof.
  vm_compute. repeat split; try reflexivity. intros H. apply H. reflexivity.
Qed.

(** The integer quotient matters as well: a skew delta of 31 ns is 0.508 ns
    per second, the real formula gives 999_999_999.49, the code keeps
    1_000_000_000. *)
Lemma drift_estimate_integer_quotient :
  corrected_server_sec 0 31 = Some 1000000000 /\
  ~ spec_nearest_estimate 31 1000000000.
Proof.
  split; [vm_compute; reflexivity|]. vm_compute. intros H. apply H. reflexivity.
Qed.

(** C1, amended: in every Drift handling cycle that obtains its skew sample,
    with previous skew [T_skew_now st] and fresh skew [skew], the new period
    estimate is the value [v] of lines 318-319: the [long long] truncation
    (the fractional part is discarded, nothing is rounded to nearest) of the
    binary64 value [1e9 * (1e9 / double (d / 61 + 1e9))], where the skew
    delta [d] is divided by [drift_period] as an integer, truncated toward
    zero.  Whenever [|d| <= 1_000_000] ns, [v] is exactly the integer part of
    [1e18 / (d / 61 + 1e9)] with the same truncated quotient; a delta of 0
    yields exactly 1_000_000_000 and a delta of 61_000 yields exactly
    999_999_000. *)
Theorem drift_estimate_truncated
    (st : state) (env : drift_env) (skew v : Z) :
  skew_reply env = Some skew ->
  corrected_server_sec (T_skew_now st) skew = Some v ->
  exists st',
    drift_handling env st = Ret tt st' /\
    T_skew_prev st' = T_skew_now st /\
    T_skew_now st' = skew /\
    server_sec st' = v /\
    (-1000000 <= skew - T_skew_now st <= 1000000 ->
     v = truncated_estimate (skew - T_skew_now st)) /\
    (skew - T_skew_now st = 0 -> v = 1000000000) /\
    (skew - T_skew_now st = 61000 -> v = 999999000).
Proof.
  intros Hr Hv.
  destruct (drift_handling_completes env st skew v Hr Hv)
    as (st' & Hrun & _ & Hsec & Hprev & Hnow & _).
  exists st'. repeat (split; [assumption|]).
  assert (Hclosed : -1000000 <= skew - T_skew_now st <= 1000000 ->
                    v = truncated_estimate (skew - T_skew_now st)).
  { intros Hd. pose proof (corrected_within_1ms (T_skew_now st) skew Hd) as Hw.
    congruence. }
  split; [exact Hclosed|].
  split; intros Hd; rewrite Hclosed by lia; rewrite Hd; reflexivity.
Qed.

Lemma drift_estimate_truncated_witness :
  exists st',
    drift_handling (drift_with (Some 61000)) initial_state = Ret tt st' /\
    T_skew_prev st' = T_skew_now initial_state /\
    T_skew_now st' = 61000 /\
    server_sec st' = 999999000 /\
    (-1000000 <= 61000 - T_skew_now initial_state <= 1000000 ->
     999999000 = truncated_estimate (61000 - T_skew_now initial_state)) /\
    (61000 - T_skew_now initial_state = 0 -> 999999000 = 1000000000) /\
    (61000 - T_skew_now initial_state = 61000 -> 999999000 = 999999000).
Proof.
  apply (drift_estimate_truncated initial_state (drift_with (Some 61000))
           61000 999999000).
  - reflexivity.
  - vm_compute. reflexivity.
Defined.

(** C2: whenever the skew delta [d = skew_now - skew_prev] (a [long long])
    satisfies [d / drift_period > -1e9], that is [d > -61e9], the estimate
    computed by Drift handling is defined and strictly positive.
    Consequently [server_sec] is strictly positive after the start-up, after
    every Drift handling cycle with such a delta and after every Sync handling
    cycle, which leaves it as it was. *)
Theorem server_sec_stays_positive
    (st : state) (senv : startup_env) (yenv : sync_env) (denv : drift_env)
    (first info : timeinfo) (skew : Z) :
  first_sync senv = Some first ->
  sync_reply yenv = Some info ->
  skew_reply denv = Some skew ->
  0 < server_sec st ->
  min_int64 <= skew - T_skew_now st <= max_int64 ->
  - (drift_period * BILLION) < skew - T_skew_now st ->
  (exists v, corrected_server_sec (T_skew_now st) skew = Some v /\ 0 < v) /\
  (exists st', main_startup senv initial_state = Ret tt st' /\ 0 < server_sec st') /\
  (exists st', drift_handling denv st = Ret tt st' /\ 0 < server_sec st') /\
  (exists st', sync_handling yenv st = Ret tt st' /\ 0 < server_sec st').
Proof.
  intros Hfirst Hsync Hskew Hpos Hrange Hd.
  assert (Hr : - 2 ^ 63 <= skew - T_skew_now st < 2 ^ 63).
  { unfold min_int64, max_int64 in Hrange. lia. }
  destruct (corrected_positive _ _ Hr Hd) as (v & Hv & Hv1 & _).
  split; [exists v; split; [exact Hv|lia]|].
  split; [|split].
  - pose proof (startup_completes senv first Hfirst) as (st' & Hrun & Hsec).
    exists st'. split; [exact Hrun|]. rewrite Hsec. reflexivity.
  - destruct (drift_handling_completes denv st skew v Hskew Hv)
      as (st' & Hrun & _ & Hsec & _).
    exists st'. split; [exact Hrun|]. lia.
  - destruct (sync_handling_completes yenv st info Hsync)
      as (st' & Hrun & _ & Hsec & _).
    exists st'. split; [exact Hrun|]. lia.
Qed.

Lemma server_sec_stays_positive_witness :
  (exists v, corrected_server_sec (T_skew_now initial_state) 61000 = Some v /\ 0 < v) /\
  (exists st', main_startup (startup_with 0 (Some first_info)) initial_state
               = Ret tt st' /\ 0 < server_sec st') /\
  (exists st', drift_handling (drift_with (Some 61000)) initial_state
               = Ret tt st' /\ 0 < server_sec st') /\
  (exists st', sync_handling (sync_with (Some first_info)) initial_state
               = Ret tt st' /\ 0 < server_sec st').
Proof.
  apply (server_sec_stays_positive initial_state
           (startup_with 0 (Some first_info)) (sync_with (Some first_info))
           (drift_with (Some 61000)) first_info first_info 61000).
  - reflexivity.
  - reflexivity.
  - reflexivity.
  - reflexivity.
  - vm_compute. split; discriminate.
  - reflexivity.
Defined.

(** C3: a Drift handling cycle that obtains its skew sample and computes the
    estimate [v], the kernel accepting the two re-armings and no [long long]
    overflowing, stores [v] in [server_sec], advances the trigger origin by
    exactly [(drift_period + 1) * v] with [drift_period = 61], re-arms the
    trigger timer at the new origin with period [v], re-arms the sync timer
    one-shot at [T_sync_n + sync_period * v + v / 2] with [sync_period = 301],
    [T_sync_n] being the sync anchor, and resets [count] to 0. *)
Theorem drift_handling_reschedules (st : state) (env : drift_env) (skew v : Z) :
  skew_reply env = Some skew ->
  drift_settime_camera env = true ->
  drift_settime_sync env = true ->
  cameraTimerID st <> NotCreated ->
  syncTimerID st <> NotCreated ->
  corrected_server_sec (T_skew_now st) skew = Some v ->
  0 < v < 2 ^ 31 * BILLION ->
  0 < T_trig_n st ->
  T_trig_n st + (drift_period + 1) * v <= max_int64 ->
  0 < T_sync_n st ->
  T_sync_n st + sync_period * v + v / 2 <= max_int64 ->
  exists st',
    drift_handling env st = Ret tt st' /\
    server_sec st' = v /\
    T_trig_n st' = T_trig_n st + (drift_period + 1) * v /\
    cameraTimerID st' =
      Armed {| it_interval := as_timespec v;
               it_value := as_timespec (T_trig_n st') |} /\
    syncTimerID st' =
      Armed {| it_interval := {| tv_sec := 0; tv_nsec := 0 |};
               it_value := as_timespec (T_sync_n st + sync_period * v + v / 2) |} /\
    count st' = 0.
Proof.
  intros Hskew Hcam Hsyn Hc Hs Hv Hrange Htrig Htmax Hsync Hsmax.
  assert (Hv64 : min_int64 <= v <= max_int64).
  { unfold min_int64, max_int64, drift_period in *.
    change (2 ^ 63) with 9223372036854775808 in *. lia. }
  assert (Et : add64 (T_trig_n st) (mul64 (wrap32 (drift_period + 1)) v)
               = T_trig_n st + (drift_period + 1) * v).
  { unfold add64, mul64, drift_period in *. change (wrap32 (61 + 1)) with (61 + 1).
    rewrite max_int64_eq in Htmax. change (2 ^ 63) with 9223372036854775808 in Htmax.
    rewrite (wrap64_id ((61 + 1) * v)) by (change (2 ^ 63) with 9223372036854775808; lia).
    apply wrap64_id. change (2 ^ 63) with 9223372036854775808. lia. }
  assert (Ey : add64 (add64 (T_sync_n st) (mul64 sync_period v)) (div64 v OFFSET)
               = T_sync_n st + sync_period * v + v / 2).
  { apply timer_offset; unfold sync_period in *; lia. }
  assert (Hy0 : 0 < T_sync_n st + sync_period * v + v / 2).
  { assert (0 <= v / 2) by (apply Z.div_pos; lia). unfold sync_period. lia. }
  unfold drift_handling, get_skew. rewrite Hskew. run_prog.
  rewrite Hv. run_prog.
  rewrite Et, (mul64_period v Hv64), Hcam.
  rewrite resetTimer_armed
    by first [reflexivity | exact Hc | exact Hrange
             | apply as_timespec_valid; unfold drift_period; lia
             | apply as_timespec_nonzero; unfold drift_period; lia | lia].
  run_prog. rewrite Ey, Hsyn.
  rewrite resetTimer_armed
    by first [reflexivity | exact Hs
             | apply as_timespec_valid; lia
             | apply as_timespec_nonzero; lia
             | unfold BILLION; change (2 ^ 31) with 2147483648; lia].
  run_prog.
  eexists; split; [reflexivity|]. cbn. auto.
Qed.

Lemma drift_handling_reschedules_witness :
  let st := state_of (main (startup_with 0 (Some first_info))
                        [Expire driftTimer some_clock]) in
  exists st',
    drift_handling (drift_with (Some 61000)) st = Ret tt st' /\
    server_sec st' = 999999000 /\
    T_trig_n st' = T_trig_n st + (drift_period + 1) * 999999000 /\
    cameraTimerID st' =
      Armed {| it_interval := as_timespec 999999000;
               it_value := as_timespec (T_trig_n st') |} /\
    syncTimerID st' =
      Armed {| it_interval := {| tv_sec := 0; tv_nsec := 0 |};
               it_value := as_timespec (T_sync_n st + sync_period * 999999000
                                        + 999999000 / 2) |} /\
    count st' = 0.
Proof.
  apply (drift_handling_reschedules
           (state_of (main (startup_with 0 (Some first_info))
                        [Expire driftTimer some_clock]))
           (drift_with (Some 61000)) 61000 999999000).
  - reflexivity.
  - reflexivity.
  - reflexivity.
  - vm_compute. discriminate.
  - vm_compute. discriminate.
  - vm_compute. reflexivity.
  - vm_compute. split; reflexivity.
  - vm_compute. reflexivity.
  - vm_compute. discriminate.
  - vm_compute. reflexivity.
  - vm_compute. discriminate.
Defined.

(** C4, as stated, fails.  In the run below a Drift handling cycle has
    brought [server_sec] to 999_999_000 before the Sync handling cycle
    obtains [start_ns = 400e9]: the trigger timer is re-armed at 400e9 with a
    period of 999_999_000 ns, not the nominal 1_000_000_000 ns. *)
Lemma sync_keeps_corrected_period :
  let st := state_of (main (startup_with 0 (Some first_info))
              [Expire driftTimer some_clock; poll_with None (Some 61000);
               Expire syncTimer some_clock;
               poll_with (Some {| T_skew_n := 5; T_start_n := 400 * BILLION |}) None]) in
  T_trig_n st = 400 * BILLION /\
  cameraTimerID st =
    Armed {| it_interval := as_timespec 999999000;
             it_value := as_timespec (400 * BILLION) |} /\
  cameraTimerID st <>
    Armed {| it_interval := as_timespec 1000000000;
             it_value := as_timespec (400 * BILLION) |}.
Proof.
  vm_compute. repeat split; try reflexivity. discriminate.
Qed.

(** C4, amended: a Sync handling cycle that obtains a [timeinfo] with
    [start_ns = Y], the kernel accepting the two re-armings and no
    [long long] overflowing, sets the trigger origin to [Y] whatever
    [server_sec] is, leaves [server_sec] as it was, re-arms the trigger timer
    at [Y] with period equal to the current [server_sec] (nominal only as
    long as no Drift handling cycle has changed it), re-arms the drift timer
    one-shot at [Y + drift_period * server_sec + server_sec / 2], records the
    returned skew as [T_skew_now] and resets [count] to 0. *)
Theorem sync_handling_reschedules (st : state) (env : sync_env) (info : timeinfo) :
  sync_reply env = Some info ->
  sync_settime_camera env = true ->
  sync_settime_drift env = true ->
  cameraTimerID st <> NotCreated ->
  driftTimerID st <> NotCreated ->
  0 < T_start_n info ->
  0 < server_sec st < 2 ^ 31 * BILLION ->
  T_start_n info + drift_period * server_sec st + server_sec st / 2 <= max_int64 ->
  exists st',
    sync_handling env st = Ret tt st' /\
    T_trig_n st' = T_start_n info /\
    server_sec st' = server_sec st /\
    cameraTimerID st' =
      Armed {| it_interval := as_timespec (server_sec st);
               it_value := as_timespec (T_start_n info) |} /\
    driftTimerID st' =
      Armed {| it_interval := {| tv_sec := 0; tv_nsec := 0 |};
               it_value := as_timespec (T_start_n info
                                        + drift_period * server_sec st
                                        + server_sec st / 2) |} /\
    T_skew_now st' = T_skew_n info /\
    count st' = 0.
Proof.
  intros Hr Hcam Hdri Hc Hd Hpos Hsec Hmax.
  assert (Hs64 : min_int64 <= server_sec st <= max_int64).
  { unfold min_int64, max_int64, BILLION in *.
    change (2 ^ 63) with 9223372036854775808. change (2 ^ 31) with 2147483648 in Hsec.
    lia. }
  assert (Ed : add64 (add64 (T_start_n info) (mul64 drift_period (server_sec st)))
                 (div64 (server_sec st) OFFSET)
               = T_start_n info + drift_period * server_sec st + server_sec st / 2).
  { apply timer_offset; unfold drift_period in *; lia. }
  assert (Hd0 : 0 < T_start_n info + drift_period * server_sec st + server_sec st / 2).
  { assert (0 <= server_sec st / 2) by (apply Z.div_pos; lia). unfold drift_period. lia. }
  unfold sync_handling, synchronize. rewrite Hr. run_prog.
  rewrite (mul64_period _ Hs64), Hcam.
  rewrite resetTimer_armed
    by first [reflexivity | exact Hc | lia
             | apply as_timespec_valid; lia | apply as_timespec_nonzero; lia].
  run_prog. rewrite Ed, Hdri.
  rewrite resetTimer_armed
    by first [reflexivity | exact Hd
             | apply as_timespec_valid; lia | apply as_timespec_nonzero; lia
             | unfold BILLION; change (2 ^ 31) with 2147483648; lia].
  run_prog.
  eexists; split; [reflexivity|]. cbn. auto 10.
Qed.

Lemma sync_handling_reschedules_witness :
  let st := state_of (main (startup_with 0 (Some first_info))
              [Expire driftTimer some_clock; poll_with None (Some 61000);
               Expire syncTimer some_clock]) in
  let info := {| T_skew_n := 5; T_start_n := 400 * BILLION |} in
  exists st',
    sync_handling (sync_with (Some info)) st = Ret tt st' /\
    T_trig_n st' = T_start_n info /\
    server_sec st' = server_sec st /\
    cameraTimerID st' =
      Armed {| it_interval := as_timespec (server_sec st);
               it_value := as_timespec (T_start_n info) |} /\
    driftTimerID st' =
      Armed {| it_interval := {| tv_sec := 0; tv_nsec := 0 |};
               it_value := as_timespec (T_start_n info
                                        + drift_period * server_sec st
                                        + server_sec st / 2) |} /\
    T_skew_now st' = T_skew_n info /\
    count st' = 0.
Proof.
  apply (sync_handling_reschedules
           (state_of (main (startup_with 0 (Some first_info))
              [Expire driftTimer some_clock; poll_with None (Some 61000);
               Expire syncTimer some_clock]))
           (sync_with (Some {| T_skew_n := 5; T_start_n := 400 * BILLION |}))
           {| T_skew_n := 5; T_start_n := 400 * BILLION |}).
  - reflexivity.
  - reflexivity.
  - reflexivity.
  - vm_compute. discriminate.
  - vm_compute. discriminate.
  - vm_compute. reflexivity.
  - vm_compute. split; reflexivity.
  - vm_compute. discriminate.
Defined.

(** C5: at start-up, when the initial full synchronization returns
    [start_ns = X] (positive, and far enough from the end of [long long]) and
    the kernel accepts the three timers, the trigger timer is armed at
    absolute time [X] with period 1e9 ns, the drift timer is armed one-shot
    (period 0) at [X + 61e9 + 5e8] ns and the sync timer is armed one-shot at
    [X + 301e9 + 5e8] ns. *)
Theorem startup_arms_timers (env : startup_env) (info : timeinfo) :
  first_sync env = Some info ->
  os_accepts (trigger_timer_os env) ->
  os_accepts (drift_timer_os env) ->
  os_accepts (sync_timer_os env) ->
  0 < T_start_n info ->
  T_start_n info + 301000000000 + 500000000 <= max_int64 ->
  exists st',
    main_startup env initial_state = Ret tt st' /\
    cameraTimerID st' =
      Armed {| it_interval := as_timespec 1000000000;
               it_value := as_timespec (T_start_n info) |} /\
    driftTimerID st' =
      Armed {| it_interval := {| tv_sec := 0; tv_nsec := 0 |};
               it_value := as_timespec (T_start_n info + 61000000000 + 500000000) |} /\
    syncTimerID st' =
      Armed {| it_interval := {| tv_sec := 0; tv_nsec := 0 |};
               it_value := as_timespec (T_start_n info + 301000000000 + 500000000) |}.
Proof.
  intros Hs Ht Hd Hy Hpos Hmax.
  assert (Ed : add64 (add64 (T_start_n info) (mul64 drift_period BILLION))
                 (div64 BILLION OFFSET)
               = T_start_n info + 61000000000 + 500000000).
  { rewrite timer_offset; unfold drift_period, BILLION; try lia.
    - reflexivity.
    - change (1000000000 / 2) with 500000000. lia. }
  assert (Ey : add64 (add64 (T_start_n info) (mul64 sync_period BILLION))
                 (div64 BILLION OFFSET)
               = T_start_n info + 301000000000 + 500000000).
  { rewrite timer_offset; unfold sync_period, BILLION; try lia.
    - reflexivity.
    - change (1000000000 / 2) with 500000000. lia. }
  unfold main_startup, setup, synchronize. rewrite Hs.
  destruct (peripheral_init_ret env =? -1); run_prog.
  all: rewrite makeTimer_armed
         by first [assumption | reflexivity
                  | apply as_timespec_valid; lia | apply as_timespec_nonzero; lia];
       run_prog.
  all: rewrite Ed.
  all: rewrite makeTimer_armed
         by first [assumption | reflexivity
                  | apply as_timespec_valid; lia | apply as_timespec_nonzero; lia];
       run_prog.
  all: rewrite Ey.
  all: rewrite makeTimer_armed
         by first [assumption | reflexivity
                  | apply as_timespec_valid; lia | apply as_timespec_nonzero; lia];
       run_prog.
  all: eexists; split; [reflexivity|]; cbn; auto.
Qed.

Lemma startup_arms_timers_witness :
  exists st',
    main_startup (startup_with 0 (Some first_info)) initial_state = Ret tt st' /\
    cameraTimerID st' =
      Armed {| it_interval := as_timespec 1000000000;
               it_value := as_timespec (T_start_n first_info) |} /\
    driftTimerID st' =
      Armed {| it_interval := {| tv_sec := 0; tv_nsec := 0 |};
               it_value := as_timespec (T_start_n first_info
                                        + 61000000000 + 500000000) |} /\
    syncTimerID st' =
      Armed {| it_interval := {| tv_sec := 0; tv_nsec := 0 |};
               it_value := as_timespec (T_start_n first_info
                                        + 301000000000 + 500000000) |}.
Proof.
  apply (startup_arms_timers (startup_with 0 (Some first_info)) first_info).
  - reflexivity.
  - repeat split; discriminate.
  - repeat split; discriminate.
  - repeat split; discriminate.
  - reflexivity.
  - vm_compute. discriminate.
Defined.

(** C6: a failed full synchronization and a failed skew sample end the
    process with exit status 1, and nothing is retried: the adapter has been
    called once more than before, and no later input is processed.  When the
    initial synchronization fails, the process exits before any of the three
    timers exists. *)
Theorem acquisition_failure_is_fatal
    (senv : startup_env) (lenv : loop_env) (st_sync st_drift : state)
    (rest : list input) :
  first_sync senv = None ->
  sync_reply (on_sync lenv) = None ->
  fSync st_sync <> 0 ->
  skew_reply (on_drift lenv) = None ->
  fSync st_drift = 0 ->
  fDrift st_drift <> 0 ->
  (exists st',
     main senv rest = Exited 1 st' /\
     main_startup senv initial_state = Exited 1 st' /\
     cameraTimerID st' = NotCreated /\
     syncTimerID st' = NotCreated /\
     driftTimerID st' = NotCreated /\
     occurrences is_full_sync (trace st') = 1%nat) /\
  (exists st',
     run (Poll lenv :: rest) st_sync = Exited 1 st' /\
     sync_handling (on_sync lenv) st_sync = Exited 1 st' /\
     occurrences is_full_sync (trace st')
     = S (occurrences is_full_sync (trace st_sync)) /\
     occurrences is_skew_sample (trace st')
     = occurrences is_skew_sample (trace st_sync)) /\
  (exists st',
     run (Poll lenv :: rest) st_drift = Exited 1 st' /\
     drift_handling (on_drift lenv) st_drift = Exited 1 st' /\
     occurrences is_skew_sample (trace st')
     = S (occurrences is_skew_sample (trace st_drift)) /\
     occurrences is_full_sync (trace st')
     = occurrences is_full_sync (trace st_drift)).
Proof.
  intros Hfirst Hsync Hfs Hskew Hfs0 Hfd.
  apply Z.eqb_neq in Hfs. apply Z.eqb_neq in Hfd. apply Z.eqb_eq in Hfs0.
  split; [|split].
  - unfold main, main_startup, setup, synchronize. rewrite Hfirst.
    destruct (peripheral_init_ret senv =? -1); run_prog;
      eexists; repeat split; reflexivity.
  - unfold run at 1, step, main_loop_iteration, sync_handling, synchronize.
    rewrite Hsync. run_prog. rewrite Hfs. run_prog.
    eexists. split; [reflexivity|]. split; [reflexivity|].
    cbn. repeat (rewrite occurrences_cons); cbn. split; reflexivity.
  - unfold run at 1, step, main_loop_iteration, drift_handling, get_skew.
    rewrite Hskew. run_prog. rewrite Hfs0. run_prog. rewrite Hfd. run_prog.
    eexists. split; [reflexivity|]. split; [reflexivity|].
    cbn. repeat (rewrite occurrences_cons); cbn. split; reflexivity.
Qed.

Lemma acquisition_failure_is_fatal_witness :
  let st_sync := state_of (main (startup_with 0 (Some first_info))
                             [Expire syncTimer some_clock]) in
  let st_drift := state_of (main (startup_with 0 (Some first_info))
                              [Expire driftTimer some_clock]) in
  let lenv := {| on_sync := sync_with None; on_drift := drift_with None |} in
  (exists st',
     main (startup_with 0 None) [Poll lenv] = Exited 1 st' /\
     main_startup (startup_with 0 None) initial_state = Exited 1 st' /\
     cameraTimerID st' = NotCreated /\
     syncTimerID st' = NotCreated /\
     driftTimerID st' = NotCreated /\
     occurrences is_full_sync (trace st') = 1%nat) /\
  (exists st',
     run [Poll lenv; Poll lenv] st_sync = Exited 1 st' /\
     sync_handling (on_sync lenv) st_sync = Exited 1 st' /\
     occurrences is_full_sync (trace st')
     = S (occurrences is_full_sync (trace st_sync)) /\
     occurrences is_skew_sample (trace st')
     = occurrences is_skew_sample (trace st_sync)) /\
  (exists st',
     run [Poll lenv; Poll lenv] st_drift = Exited 1 st' /\
     drift_handling (on_drift lenv) st_drift = Exited 1 st' /\
     occurrences is_skew_sample (trace st')
     = S (occurrences is_skew_sample (trace st_drift)) /\
     occurrences is_full_sync (trace st')
     = occurrences is_full_sync (trace st_drift)).
Proof.
  apply (acquisition_failure_is_fatal (startup_with 0 None)
           {| on_sync := sync_with None; on_drift := drift_with None |}
           (state_of (main (startup_with 0 (Some first_info))
                        [Expire syncTimer some_clock]))
           (state_of (main (startup_with 0 (Some first_info))
                        [Expire driftTimer some_clock]))
           [Poll {| on_sync := sync_with None; on_drift := drift_with None |}]).
  - reflexivity.
  - reflexivity.
  - vm_compute. discriminate.
  - reflexivity.
  - vm_compute. reflexivity.
  - vm_compute. discriminate.
Defined.

(** C7 does not hold of the code: [setup] reports the failed peripheral
    initialization and returns, and [main] carries on.  With
    [peripheral->init() = -1] and everything else in order, the log is never
    opened, the three timers are armed all the same, the loop is entered and
    the first expiry of the trigger timer fires the camera. *)
Theorem peripheral_failure_does_not_abort :
  exists st,
    main (startup_with (-1) (Some first_info))
      [Expire cameraTimer some_clock; poll_with None None] = Ret tt st /\
    is_armed (cameraTimerID st) = true /\
    is_armed (driftTimerID st) = true /\
    is_armed (syncTimerID st) = true /\
    count st = 1 /\
    In EvTriggerOn (trace st) /\
    In (EvUsleep 100000) (trace st) /\
    ~ In (EvLoggerOpen "changeme.csv") (trace st).
Proof.
  eexists. split; [vm_compute; reflexivity|].
  cbn. repeat split; auto.
  intros H. repeat (destruct H as [H|H]; [discriminate H|]). exact H.
Qed.

(** C8: [count] is 0 after every completed Drift handling cycle and after
    every completed Sync handling cycle; a firing of the trigger timer
    ([triggerCamera], reached through [timer_handler]) increments it by
    exactly 1, and the expiries of the other two timers leave it alone. *)
Theorem trigger_count_discipline
    (st st_d st_y : state) (denv : drift_env) (yenv : sync_env)
    (clock : timespec) :
  drift_handling denv st = Ret tt st_d ->
  sync_handling yenv st = Ret tt st_y ->
  - 2 ^ 31 <= count st < 2 ^ 31 - 1 ->
  count st_d = 0 /\
  count st_y = 0 /\
  (exists st', triggerCamera clock st = Ret tt st' /\ count st' = count st + 1) /\
  (exists st', timer_handler cameraTimer clock st = Ret tt st' /\
               count st' = count st + 1) /\
  (exists st', timer_handler syncTimer clock st = Ret tt st' /\
               count st' = count st) /\
  (exists st', timer_handler driftTimer clock st = Ret tt st' /\
               count st' = count st).
Proof.
  intros Hd Hy Hc.
  assert (Hinc : wrap32 (count st + 1) = count st + 1) by (apply wrap32_id; lia).
  split; [|split; [|split; [|split; [|split]]]].
  - destruct (skew_reply denv) as [skew|] eqn:Hr.
    + destruct (corrected_server_sec (T_skew_now st) skew) as [v|] eqn:Hv.
      * destruct (drift_handling_completes denv st skew v Hr Hv)
          as (st' & Hrun & H0 & _). congruence.
      * revert Hd. unfold drift_handling, get_skew. rewrite Hr. run_prog.
        rewrite Hv. run_prog. discriminate.
    + revert Hd. unfold drift_handling, get_skew. rewrite Hr. run_prog. discriminate.
  - destruct (sync_reply yenv) as [info|] eqn:Hr.
    + destruct (sync_handling_completes yenv st info Hr) as (st' & Hrun & H0 & _).
      congruence.
    + revert Hy. unfold sync_handling, synchronize. rewrite Hr. run_prog. discriminate.
  - unfold triggerCamera. run_prog. eexists; split; [reflexivity|]. cbn. exact Hinc.
  - unfold timer_handler, triggerCamera. run_prog.
    eexists; split; [reflexivity|]. cbn. exact Hinc.
  - cbn. eexists; split; reflexivity.
  - cbn. eexists; split; reflexivity.
Qed.

Lemma trigger_count_discipline_witness :
  let st := state_of (main (startup_with 0 (Some first_info))
                        [Expire cameraTimer some_clock;
                         Expire cameraTimer some_clock]) in
  let st_d := state_of (drift_handling (drift_with (Some 61000)) st) in
  let st_y := state_of (sync_handling (sync_with (Some first_info)) st) in
  count st = 2 /\
  count st_d = 0 /\
  count st_y = 0 /\
  (exists st', triggerCamera some_clock st = Ret tt st' /\ count st' = count st + 1) /\
  (exists st', timer_handler cameraTimer some_clock st = Ret tt st' /\
               count st' = count st + 1) /\
  (exists st', timer_handler syncTimer some_clock st = Ret tt st' /\
               count st' = count st) /\
  (exists st', timer_handler driftTimer some_clock st = Ret tt st' /\
               count st' = count st).
Proof.
  split; [vm_compute; reflexivity|].
  apply (trigger_count_discipline
           (state_of (main (startup_with 0 (Some first_info))
                        [Expire cameraTimer some_clock;
                         Expire cameraTimer some_clock]))
           _ _ (drift_with (Some 61000)) (sync_with (Some first_info)) some_clock).
  - vm_compute. reflexivity.
  - vm_compute. reflexivity.
  - vm_compute. split; [discriminate|reflexivity].
Defined.

(** C9, as stated, fails.  The run below reaches a Drift handling cycle with
    [server_sec = 999_999_000] (left by an earlier cycle) in which the fresh
    skew equals the previous one; after the cycle [server_sec] is
    1_000_000_000, not what it was. *)
Lemma equal_skew_changes_estimate :
  let before := state_of (main (startup_with 0 (Some first_info))
                  [Expire driftTimer some_clock; poll_with None (Some 61000);
                   Expire syncTimer some_clock;
                   poll_with (Some {| T_skew_n := 5; T_start_n := 400 * BILLION |}) None;
                   Expire driftTimer some_clock]) in
  let after := state_of (drift_handling (drift_with (Some 5)) before) in
  fDrift before = 1 /\
  T_skew_now after = T_skew_prev after /\
  server_sec before = 999999000 /\
  server_sec after = 1000000000 /\
  server_sec after <> server_sec before.
Proof.
  vm_compute. repeat split; try reflexivity. discriminate.
Qed.

(** C9, amended: a Drift handling cycle in which the fresh skew equals the
    previous one sets [server_sec] to the nominal 1_000_000_000 whatever its
    prior value; it is left unchanged exactly when it was nominal before. *)
Theorem equal_skew_gives_nominal (st : state) (env : drift_env) (skew : Z) :
  skew_reply env = Some skew ->
  skew = T_skew_now st ->
  exists st',
    drift_handling env st = Ret tt st' /\
    T_skew_now st' = T_skew_prev st' /\
    server_sec st' = 1000000000 /\
    (server_sec st' = server_sec st <-> server_sec st = 1000000000).
Proof.
  intros Hr ->.
  destruct (drift_handling_completes env st (T_skew_now st) BILLION Hr
              (corrected_equal_skews _))
    as (st' & Hrun & _ & Hsec & Hprev & Hnow & _).
  exists st'. split; [exact Hrun|]. split; [congruence|].
  change BILLION with 1000000000 in Hsec.
  split; [exact Hsec|]. rewrite Hsec. split; congruence.
Qed.

Lemma equal_skew_gives_nominal_witness :
  exists st',
    drift_handling (drift_with (Some 0)) initial_state = Ret tt st' /\
    T_skew_now st' = T_skew_prev st' /\
    server_sec st' = 1000000000 /\
    (server_sec st' = server_sec initial_state
     <-> server_sec initial_state = 1000000000).
Proof.
  apply (equal_skew_gives_nominal initial_state (drift_with (Some 0)) 0).
  - reflexivity.
  - reflexivity.
Defined.

(** C10, as stated, fails: Drift handling does not re-arm the drift timer.
    In the run below the drift timer expires once, the Drift handling cycle
    runs, and the timer is left disarmed; two more attempts to deliver its
    expiry and two more iterations of the loop produce no further skew
    sample. *)
Lemma drift_timer_not_rearmed :
  let once := state_of (main (startup_with 0 (Some first_info))
                [Expire driftTimer some_clock; poll_with None (Some 61000)]) in
  let later := state_of (main (startup_with 0 (Some first_info))
                 [Expire driftTimer some_clock; poll_with None (Some 61000);
                  Expire driftTimer some_clock; poll_with None (Some 61000);
                  Expire driftTimer some_clock; poll_with None (Some 61000)]) in
  occurrences is_skew_sample (trace once) = 1%nat /\
  driftTimerID once = Disarmed /\
  is_armed (driftTimerID once) = false /\
  fDrift once = 0 /\
  occurrences is_skew_sample (trace later) = 1%nat /\
  driftTimerID later = Disarmed.
Proof.
  vm_compute. repeat split; reflexivity.
Qed.

(** C10, amended: Drift handling is not periodic.  The drift timer is
    one-shot, a Drift handling cycle leaves it as it found it, and only the
    start-up and the Sync handling cycles arm it; so in every run, however it
    ends, the number of Drift handling cycles (skew samples) is at most one
    more than the number of Sync handling cycles (full synchronizations made
    from the loop): the state is mutated by Drift handling once per arming,
    about 61.5 remote seconds after the synchronization that armed the
    timer. *)
Theorem drift_cycles_paid_by_resyncs
    (env : startup_env) (ins : list input)
    (denv : drift_env) (st st' : state) :
  drift_handling denv st = Ret tt st' ->
  driftTimerID st' = driftTimerID st /\
  (occurrences is_skew_sample (trace (state_of (main env ins)))
   <= 1 + occurrences is_resync (trace (state_of (main env ins))))%nat.
Proof.
  intros Hd. split.
  { destruct (skew_reply denv) as [skew|] eqn:Hr.
    - destruct (corrected_server_sec (T_skew_now st) skew) as [v|] eqn:Hv.
      + destruct (drift_handling_completes denv st skew v Hr Hv)
          as (st0 & Hrun & _ & _ & _ & _ & _ & _ & Ht). congruence.
      + revert Hd. unfold drift_handling, get_skew. rewrite Hr. run_prog.
        rewrite Hv. run_prog. discriminate.
    - revert Hd. unfold drift_handling, get_skew. rewrite Hr. run_prog. discriminate. }
  assert (H : outcome (main env ins) drift_budget samples_bounded).
  { unfold main. apply outcome_bind with (Q := drift_budget).
    - apply startup_budget.
    - intros _ s Hs. now apply run_budget. }
  destruct (main env ins) as [a s|status s|s]; cbn in *.
  - now apply budget_samples.
  - exact H.
  - exact H.
Qed.

Lemma drift_cycles_paid_by_resyncs_witness :
  let st := state_of (main (startup_with 0 (Some first_info))
                        [Expire driftTimer some_clock]) in
  let st' := state_of (drift_handling (drift_with (Some 61000)) st) in
  let ins := [Expire driftTimer some_clock; poll_with None (Some 61000);
              Expire driftTimer some_clock; poll_with None (Some 61000)] in
  driftTimerID st = Disarmed /\
  driftTimerID st' = driftTimerID st /\
  (occurrences is_skew_sample
     (trace (state_of (main (startup_with 0 (Some first_info)) ins)))
   <= 1 + occurrences is_resync
            (trace (state_of (main (startup_with 0 (Some first_info)) ins))))%nat.
Proof.
  split; [vm_compute; reflexivity|].
  apply (drift_cycles_paid_by_resyncs (startup_with 0 (Some first_info))
           [Expire driftTimer some_clock; poll_with None (Some 61000);
            Expire driftTimer some_clock; poll_with None (Some 61000)]
           (drift_with (Some 61000))
           (state_of (main (startup_with 0 (Some first_info))
                        [Expire driftTimer some_clock]))).
  vm_compute. reflexivity.
Defined.

(** * Further properties *)

(** ** The two timer helpers *)

(** X1: called on a timer that does not exist yet, [makeTimer] always
    returns, with 0 or -1.  It returns 0 exactly when [sigaction],
    [timer_create] and [timer_settime] all succeed, and then the timer holds
    the requested start time and interval (disarmed if the start time is
    zero).  After a return of -1 the timer is not armed; it does not exist at
    all exactly when [sigaction] or [timer_create] failed.  The other two
    timers are left alone. *)
Theorem makeTimer_status
    (os : timer_os) (name : string) (t : timer_name) (T_start : timespec)
    (it_sec it_nsec : Z) (s : state) :
  timer_of t s = NotCreated ->
  exists r s',
    makeTimer os name t T_start it_sec it_nsec s = Ret r s' /\
    (r = 0 \/ r = -1) /\
    (r = 0 <->
     sigaction_ret os <> -1 /\ timer_create_ret os = 0 /\
     settime_accepted os = true /\ timespec_valid T_start = true /\
     timespec_valid {| tv_sec := it_sec; tv_nsec := it_nsec |} = true) /\
    (r = -1 -> is_armed (timer_of t s') = false) /\
    (r = 0 ->
     timer_of t s' =
       if timespec_is_zero T_start then Disarmed
       else Armed {| it_interval := {| tv_sec := it_sec; tv_nsec := it_nsec |};
                     it_value := T_start |}) /\
    (forall u, u <> t -> timer_of u s' = timer_of u s) /\
    (timer_of t s' = NotCreated <->
     sigaction_ret os = -1 \/ timer_create_ret os <> 0).
Proof.
  intros Hn.
  unfold makeTimer, bind, modify, get, ret, emit, timer_create, timer_settime.
  destruct (sigaction_ret os =? -1) eqn:Es;
    [apply Z.eqb_eq in Es|apply Z.eqb_neq in Es].
  2: destruct (timer_create_ret os =? 0) eqn:Ec; cbn; rewrite ?Ec; cbn;
       [apply Z.eqb_eq in Ec|apply Z.eqb_neq in Ec].
  2: destruct (settime_accepted os) eqn:Ea;
       destruct (timespec_valid T_start) eqn:Ev;
       destruct (timespec_valid {| tv_sec := it_sec; tv_nsec := it_nsec |}) eqn:Ei;
       cbn.
  all: eexists _, _; (split; [reflexivity|]).
  all: destruct t; cbn in *; rewrite ?Hn.
  all: repeat match goal with |- _ /\ _ => split end.
  all: try (intros u Hu; destruct u; cbn; congruence).
  all: try (destruct (timespec_is_zero T_start); cbn; intuition congruence).
  all: intuition congruence.
Qed.

Lemma makeTimer_status_witness :
  exists r s',
    makeTimer os_ok "Trigger Timer" cameraTimer (as_timespec (10 * BILLION)) PERIOD 0
      initial_state = Ret r s' /\
    r = 0 /\
    cameraTimerID s' =
      Armed {| it_interval := {| tv_sec := PERIOD; tv_nsec := 0 |};
               it_value := as_timespec (10 * BILLION) |} /\
    syncTimerID s' = NotCreated /\ driftTimerID s' = NotCreated.
Proof.
  destruct (makeTimer_status os_ok "Trigger Timer" cameraTimer
              (as_timespec (10 * BILLION)) PERIOD 0 initial_state eq_refl)
    as (r & s' & E & _ & Hr & _ & Ha & Hu & _).
  assert (H0 : r = 0).
  { apply Hr. repeat split; try reflexivity. discriminate. }
  exists r, s'. split; [exact E|]. split; [exact H0|].
  split; [exact (Ha H0)|].
  split; [apply (Hu syncTimer)|apply (Hu driftTimer)]; discriminate.
Defined.

(** X2: [resetTimer] splits its period [t_nsec] into seconds and
    nanoseconds without loss.  For a created timer, an accepted call, a valid
    non-zero start time and [0 <= t_nsec < 2^31 s], the timer ends up armed at
    the start time with an interval worth exactly [t_nsec] nanoseconds, whose
    fields fit an [int] and a nanosecond count; the interval is zero (a
    one-shot timer) exactly when [t_nsec] is 0.  Nothing is printed and the
    other timers are left alone. *)
Theorem resetTimer_period_exact
    (ok : bool) (t : timer_name) (T_start : timespec) (n : Z) (s : state) :
  ok = true ->
  timer_of t s <> NotCreated ->
  timespec_valid T_start = true ->
  timespec_is_zero T_start = false ->
  0 <= n < 2 ^ 31 * BILLION ->
  exists its s',
    resetTimer ok t T_start n s = Ret tt s' /\
    timer_of t s' = Armed its /\
    it_value its = T_start /\
    tv_sec (it_interval its) * BILLION + tv_nsec (it_interval its) = n /\
    0 <= tv_sec (it_interval its) < 2 ^ 31 /\
    0 <= tv_nsec (it_interval its) < BILLION /\
    (timespec_is_zero (it_interval its) = true <-> n = 0) /\
    trace s' = trace s /\
    (forall u, u <> t -> timer_of u s' = timer_of u s).
Proof.
  intros Hok Hc Hv Hz Hn.
  rewrite (resetTimer_armed ok t T_start n s Hok Hc Hv Hz Hn).
  eexists _, _. split; [reflexivity|].
  rewrite set_timer_same. split; [reflexivity|].
  unfold as_timespec. cbn [it_value it_interval tv_sec tv_nsec].
  unfold BILLION in *. change (2 ^ 31) with 2147483648 in *.
  pose proof (Z.div_mod n 1000000000 ltac:(lia)) as E.
  pose proof (Z.mod_pos_bound n 1000000000 ltac:(lia)) as Hm.
  assert (Hd : 0 <= n / 1000000000 < 2147483648).
  { split; [apply Z.div_pos; lia|apply Z.div_lt_upper_bound; lia]. }
  split; [reflexivity|]. split; [lia|]. split; [exact Hd|]. split; [exact Hm|].
  split; [|split].
  - unfold timespec_is_zero. cbn [tv_sec tv_nsec].
    rewrite andb_true_iff, !Z.eqb_eq. lia.
  - destruct t; reflexivity.
  - intros u Hu. destruct t, u; try reflexivity; contradiction.
Qed.

Lemma resetTimer_period_exact_witness :
  let s := state_of (main (startup_with 0 (Some first_info)) []) in
  exists its s',
    resetTimer true cameraTimer (as_timespec (20 * BILLION)) 999999000 s = Ret tt s' /\
    timer_of cameraTimer s' = Armed its /\
    it_value its = as_timespec (20 * BILLION) /\
    tv_sec (it_interval its) * BILLION + tv_nsec (it_interval its) = 999999000 /\
    0 <= tv_sec (it_interval its) < 2 ^ 31 /\
    0 <= tv_nsec (it_interval its) < BILLION /\
    (timespec_is_zero (it_interval its) = true <-> 999999000 = 0) /\
    trace s' = trace s /\
    (forall u, u <> cameraTimer -> timer_of u s' = timer_of u s).
Proof.
  apply (resetTimer_period_exact true cameraTimer (as_timespec (20 * BILLION)) 999999000
           (state_of (main (startup_with 0 (Some first_info)) []))).
  - reflexivity.
  - vm_compute. discriminate.
  - vm_compute. reflexivity.
  - vm_compute. reflexivity.
  - vm_compute. split; [discriminate|reflexivity].
Defined.

(** ** A re-arming the kernel rejects *)

Lemma set_timer_self t s : set_timer t (timer_of t s) s = s.
Proof. destruct s, t; reflexivity. Qed.

(** A negative period gives a [timespec] with a negative field. *)
Lemma negative_interval_invalid n :
  - (2 ^ 31 * BILLION) < n < 0 ->
  timespec_valid {| tv_sec := wrap32 (div64 n BILLION);
                    tv_nsec := wrap32 (rem64 n BILLION) |} = false.
Proof.
  intros Hn.
  unfold timespec_valid, div64, rem64, BILLION in *. cbn [tv_sec tv_nsec].
  change (2 ^ 31) with 2147483648 in Hn.
  pose proof (Z.quot_rem' n 1000000000) as E.
  pose proof (Z.rem_nonpos n 1000000000 ltac:(lia) ltac:(lia)) as Hr.
  assert (Hq : - 2147483648 < Z.quot n 1000000000 <= 0).
  { split.
    - assert (H : Z.quot (- 2147483648000000000) 1000000000 <= Z.quot n 1000000000)
        by (apply Z.quot_le_mono; lia).
      change (Z.quot (- 2147483648000000000) 1000000000) with (- 2147483648) in H.
      destruct (Z.eq_dec (Z.quot n 1000000000) (- 2147483648)); [|lia].
      lia.
    - rewrite <- (Z.opp_involutive n), Z.quot_opp_l by lia.
      assert (0 <= Z.quot (- n) 1000000000) by (apply Z.quot_pos; lia). lia. }
  assert (Hr' : - 1000000000 < Z.rem n 1000000000).
  { rewrite <- (Z.opp_involutive n), Z.rem_opp_l by lia.
    pose proof (Z.rem_bound_pos (- n) 1000000000 ltac:(lia) ltac:(lia)). lia. }
  rewrite !wrap64_id by (change (2 ^ 63) with 9223372036854775808; lia).
  rewrite !wrap32_id by (change (2 ^ 31) with 2147483648; lia).
  destruct (Z.eq_dec (Z.quot n 1000000000) 0) as [E0|E0].
  - assert (Z.rem n 1000000000 < 0) by lia.
    apply andb_false_iff. left. apply andb_false_iff. right.
    apply Z.leb_gt. assumption.
  - apply andb_false_iff. left. apply andb_false_iff. left.
    apply Z.leb_gt. lia.
Qed.

Lemma resetTimer_rejected ok t T_start n s :
  ok && timespec_valid T_start
  && timespec_valid {| tv_sec := wrap32 (div64 n BILLION);
                       tv_nsec := wrap32 (rem64 n BILLION) |} = false ->
  resetTimer ok t T_start n s = Ret tt (log_event (EvPrint "timer_settime") s).
Proof.
  intros Hrej.
  unfold resetTimer, bind, modify, get, when, ret, emit, timer_settime.
  cbn [it_value it_interval]. rewrite Hrej.
  destruct (timer_of t s) eqn:Et; cbn; rewrite <- Et, set_timer_self; reflexivity.
Qed.

(** X3: [resetTimer] has no return value, and a re-arming that fails leaves
    no mark but a message.  When the kernel refuses the call, or when the
    period is negative (more than [-2^31] s), the call returns with every
    timer as it was, with all variables as they were, and with
    ["timer_settime"] printed by [perror]. *)
Theorem resetTimer_refusal_is_silent
    (ok : bool) (t : timer_name) (T_start : timespec) (n : Z) (s : state) :
  ok = false \/ - (2 ^ 31 * BILLION) < n < 0 ->
  exists s',
    resetTimer ok t T_start n s = Ret tt s' /\
    (forall u, timer_of u s' = timer_of u s) /\
    trace s' = EvPrint "timer_settime" :: trace s /\
    variables s' = variables s.
Proof.
  intros H. exists (log_event (EvPrint "timer_settime") s). split.
  - apply resetTimer_rejected. destruct H as [->|Hn]; [reflexivity|].
    rewrite (negative_interval_invalid n Hn). apply andb_false_r.
  - split; [intros u; destruct u; reflexivity|]. split; reflexivity.
Qed.

Lemma resetTimer_refusal_is_silent_witness :
  let s := state_of (main (startup_with 0 (Some first_info)) []) in
  exists s',
    resetTimer true cameraTimer (as_timespec (20 * BILLION)) (- 5) s = Ret tt s' /\
    (forall u, timer_of u s' = timer_of u s) /\
    trace s' = EvPrint "timer_settime" :: trace s /\
    variables s' = variables s.
Proof.
  apply (resetTimer_refusal_is_silent true cameraTimer (as_timespec (20 * BILLION)) (- 5)
           (state_of (main (startup_with 0 (Some first_info)) []))).
  right. vm_compute. split; reflexivity.
Defined.

(** ** What the kernel's replies cannot change *)

Lemma variables_shape t v tr s :
  variables (log_events tr (set_timer t v s)) = variables s.
Proof. destruct t; reflexivity. Qed.

Lemma agree_bind {A B} (m m' : M A) (k k' : A -> M B) s s' :
  agree (m s) (m' s') ->
  (forall a s1 s1', variables s1 = variables s1' -> agree (k a s1) (k' a s1')) ->
  agree (bind m k s) (bind m' k' s').
Proof.
  intros H Hk. unfold bind.
  destruct (m s) as [a s1|st s1|s1], (m' s') as [b s2|st' s2|s2]; cbn in *;
    try contradiction; auto.
  destruct H as [-> H]. now apply Hk.
Qed.

Lemma variables_fields s s' :
  variables s = variables s' ->
  count s = count s' /\ fSync s = fSync s' /\ fDrift s = fDrift s' /\
  T_skew_prev s = T_skew_prev s' /\ T_skew_now s = T_skew_now s' /\
  T_trig_n s = T_trig_n s' /\ T_sync_n s = T_sync_n s' /\
  T_drift_n s = T_drift_n s' /\ server_sec s = server_sec s' /\ TI s = TI s'.
Proof. unfold variables. intros H. injection H. intuition. Qed.

Lemma resetTimer_agree ok ok' t t' T T' n n' s s' :
  variables s = variables s' ->
  agree (resetTimer ok t T n s) (resetTimer ok' t' T' n' s').
Proof.
  intros H.
  destruct (resetTimer_shape ok t T n s) as (v & tr & -> & _).
  destruct (resetTimer_shape ok' t' T' n' s') as (v' & tr' & -> & _).
  cbn. now rewrite !variables_shape.
Qed.

Lemma makeTimer_agree os os' name name' t t' T T' a a' b b' s s' :
  variables s = variables s' ->
  match makeTimer os name t T a b s, makeTimer os' name' t' T' a' b' s' with
  | Ret _ s1, Ret _ s1' => variables s1 = variables s1'
  | _, _ => False
  end.
Proof.
  intros H.
  destruct (makeTimer_shape os name t T a b s) as (r & v & tr & -> & _).
  destruct (makeTimer_shape os' name' t' T' a' b' s') as (r' & v' & tr' & -> & _).
  now rewrite !variables_shape.
Qed.

Lemma sync_handling_agree env env' s s' :
  sync_reply env = sync_reply env' -> variables s = variables s' ->
  agree (sync_handling env s) (sync_handling env' s').
Proof.
  intros Hr Hv. unfold sync_handling, synchronize. rewrite <- Hr.
  apply variables_fields in Hv as Hf.
  destruct Hf as (Hc & Hfs & Hfd & Hsp & Hsn & Htt & Hts & Htd & Hss & Hti).
  destruct (sync_reply env) as [info|]; run_prog.
  - rewrite <- Hss.
    reset_shape v1 tr1 Hv1 Ht1. reset_shape v1' tr1' Hv1' Ht1'. run_prog.
    reset_shape v2 tr2 Hv2 Ht2. reset_shape v2' tr2' Hv2' Ht2'. run_prog.
    split; [reflexivity|]. unfold variables; cbn. congruence.
  - split; [reflexivity|]. unfold variables; cbn. congruence.
Qed.

Lemma drift_handling_agree env env' s s' :
  skew_reply env = skew_reply env' -> variables s = variables s' ->
  agree (drift_handling env s) (drift_handling env' s').
Proof.
  intros Hr Hv. unfold drift_handling, get_skew. rewrite <- Hr.
  apply variables_fields in Hv as Hf.
  destruct Hf as (Hc & Hfs & Hfd & Hsp & Hsn & Htt & Hts & Htd & Hss & Hti).
  destruct (skew_reply env) as [skew|]; run_prog.
  - rewrite <- Hsn.
    destruct (corrected_server_sec (T_skew_now s) skew) as [v|]; run_prog.
    + rewrite <- Htt, <- Hts.
      reset_shape v1 tr1 Hv1 Ht1. reset_shape v1' tr1' Hv1' Ht1'. run_prog.
      reset_shape v2 tr2 Hv2 Ht2. reset_shape v2' tr2' Hv2' Ht2'. run_prog.
      split; [reflexivity|]. unfold variables; cbn. congruence.
    + unfold variables; cbn. congruence.
  - split; [reflexivity|]. unfold variables; cbn. congruence.
Qed.

Lemma bind_get {B} (k : state -> M B) s : bind get k s = k s s.
Proof. reflexivity. Qed.

(** X4: the loop never looks at what [timer_settime] answered.  Two
    iterations of the loop that start from the same variables and get the same
    replies from the remote clock end the same way (return, [exit] status, or
    undefined cast) with the same variables, whatever the kernel answers to
    the four re-armings and whatever state the three timers are in. *)
Theorem loop_iteration_kernel_blind (env env' : loop_env) (s s' : state) :
  sync_reply (on_sync env) = sync_reply (on_sync env') ->
  skew_reply (on_drift env) = skew_reply (on_drift env') ->
  variables s = variables s' ->
  agree (main_loop_iteration env s) (main_loop_iteration env' s').
Proof.
  intros Hs Hd Hv. unfold main_loop_iteration. rewrite !bind_get.
  apply agree_bind.
  { destruct (variables_fields _ _ Hv) as (_ & <- & _).
    unfold when. destruct (negb (fSync s =? 0)).
    - now apply sync_handling_agree.
    - cbn. auto. }
  intros _ s1 s1' H1. rewrite !bind_get.
  apply agree_bind.
  { destruct (variables_fields _ _ H1) as (_ & _ & <- & _).
    unfold when. destruct (negb (fDrift s1 =? 0)).
    - now apply drift_handling_agree.
    - cbn. auto. }
  intros _ s2 s2' H2. cbn. split; [reflexivity|].
  unfold variables in *. cbn. exact H2.
Qed.

Lemma loop_iteration_kernel_blind_witness :
  let s := state_of (main (startup_with 0 (Some first_info))
                       [Expire driftTimer some_clock; Expire syncTimer some_clock]) in
  let refused :=
    {| on_sync := {| sync_reply := Some first_info;
                     sync_settime_camera := false; sync_settime_drift := false |};
       on_drift := {| skew_reply := Some 61000;
                      drift_settime_camera := false; drift_settime_sync := false |} |} in
  let accepted :=
    {| on_sync := sync_with (Some first_info); on_drift := drift_with (Some 61000) |} in
  agree (main_loop_iteration accepted s) (main_loop_iteration refused s).
Proof.
  cbv zeta. apply loop_iteration_kernel_blind; reflexivity.
Defined.

(** X5: the start-up ignores the status of [setup] and of the three
    [makeTimer] calls (the latter is printed, nothing more).  Two start-ups
    that get the same first synchronization end the same way with the same
    variables, whatever [peripheral->init], [sigaction], [timer_create] and
    [timer_settime] return. *)
Theorem startup_kernel_blind (env env' : startup_env) :
  first_sync env = first_sync env' ->
  agree (main_startup env initial_state) (main_startup env' initial_state).
Proof.
  intros Hs. unfold main_startup, setup, synchronize. rewrite <- Hs.
  destruct (peripheral_init_ret env =? -1), (peripheral_init_ret env' =? -1);
    destruct (first_sync env) as [info|]; run_prog.
  all: try (split; reflexivity).
  all: make_shape v1 tr1 Hv1 Ht1; make_shape v1' tr1' Hv1' Ht1'; run_prog.
  all: make_shape v2 tr2 Hv2 Ht2; make_shape v2' tr2' Hv2' Ht2'; run_prog.
  all: make_shape v3 tr3 Hv3 Ht3; make_shape v3' tr3' Hv3' Ht3'; run_prog.
  all: split; reflexivity.
Qed.

Lemma startup_kernel_blind_witness :
  let failing := {| sigaction_ret := 0; timer_create_ret := -1; settime_accepted := false |} in
  agree (main_startup (startup_with 0 (Some first_info)) initial_state)
        (main_startup {| peripheral_init_ret := -1; first_sync := Some first_info;
                         trigger_timer_os := failing; drift_timer_os := failing;
                         sync_timer_os := failing |} initial_state).
Proof.
  cbv zeta. apply startup_kernel_blind. reflexivity.
Defined.

(** ** One iteration of the loop *)

Lemma sync_handling_flags env s :
  outcome (sync_handling env s)
    (fun s' => fSync s' = 0 /\ fDrift s' = fDrift s /\ count s' = 0)
    (fun _ => True).
Proof.
  unfold sync_handling, synchronize.
  destruct (sync_reply env) as [info|]; run_prog; [|exact I].
  reset_shape v1 tr1 Hv1 Ht1. run_prog.
  reset_shape v2 tr2 Hv2 Ht2. run_prog. auto.
Qed.

Lemma drift_handling_flags env s :
  outcome (drift_handling env s)
    (fun s' => fDrift s' = 0 /\ fSync s' = fSync s /\ count s' = 0)
    (fun _ => True).
Proof.
  unfold drift_handling, get_skew.
  destruct (skew_reply env) as [skew|]; run_prog; [|exact I].
  destruct (corrected_server_sec (T_skew_now s) skew) as [v|]; run_prog; [|exact I].
  reset_shape v1 tr1 Hv1 Ht1. run_prog.
  reset_shape v2 tr2 Hv2 Ht2. run_prog. auto.
Qed.

(** X6: an iteration of the loop that completes leaves no flag pending.
    If one of [fSync], [fDrift] was set at its start then [count] is 0 at its
    end; if neither was, the iteration did nothing but sleep for 100 ms. *)
Theorem loop_iteration_clears_flags (env : loop_env) (s s' : state) :
  main_loop_iteration env s = Ret tt s' ->
  fSync s' = 0 /\ fDrift s' = 0 /\
  (fSync s <> 0 \/ fDrift s <> 0 -> count s' = 0) /\
  (fSync s = 0 -> fDrift s = 0 -> s' = log_event (EvUsleep 100000) s).
Proof.
  unfold main_loop_iteration. rewrite bind_get. unfold bind at 1, when.
  destruct (fSync s =? 0) eqn:Es; cbn [negb];
    [apply Z.eqb_eq in Es|apply Z.eqb_neq in Es].
  - cbn [ret]. rewrite bind_get. unfold bind at 1.
    destruct (fDrift s =? 0) eqn:Ed; cbn [negb];
      [apply Z.eqb_eq in Ed|apply Z.eqb_neq in Ed].
    + cbn. intros [= <-]. cbn. intuition congruence.
    + pose proof (drift_handling_flags (on_drift env) s) as H.
      destruct (drift_handling (on_drift env) s) as [[] s1| |]; try discriminate.
      cbn in H. destruct H as (H1 & H2 & H3).
      cbn. intros [= <-]. cbn. intuition congruence.
  - pose proof (sync_handling_flags (on_sync env) s) as H.
    destruct (sync_handling (on_sync env) s) as [[] s1| |]; try discriminate.
    cbn in H. destruct H as (H1 & H2 & H3).
    rewrite bind_get. unfold bind at 1.
    destruct (fDrift s1 =? 0) eqn:Ed; cbn [negb];
      [apply Z.eqb_eq in Ed|apply Z.eqb_neq in Ed].
    + cbn. intros [= <-]. cbn. intuition congruence.
    + pose proof (drift_handling_flags (on_drift env) s1) as H.
      destruct (drift_handling (on_drift env) s1) as [[] s2| |]; try discriminate.
      cbn in H. destruct H as (H4 & H5 & H6).
      cbn. intros [= <-]. cbn. intuition congruence.
Qed.

Lemma loop_iteration_clears_flags_witness :
  let s := state_of (main (startup_with 0 (Some first_info))
                       [Expire driftTimer some_clock; Expire syncTimer some_clock]) in
  let env := {| on_sync := sync_with (Some first_info);
                on_drift := drift_with (Some 61000) |} in
  fSync s = 1 /\ fDrift s = 1 /\
  fSync (state_of (main_loop_iteration env s)) = 0 /\
  fDrift (state_of (main_loop_iteration env s)) = 0.
Proof.
  cbv zeta.
  pose proof (loop_iteration_clears_flags
                {| on_sync := sync_with (Some first_info);
                   on_drift := drift_with (Some 61000) |}
                (state_of (main (startup_with 0 (Some first_info))
                             [Expire driftTimer some_clock; Expire syncTimer some_clock]))
                _ ltac:(vm_compute; reflexivity)) as (H1 & H2 & _).
  split; [vm_compute; reflexivity|]. split; [vm_compute; reflexivity|].
  split; [vm_compute; reflexivity|vm_compute; reflexivity].
Defined.

(** Everything a completed drift block does to the variables. *)
Lemma drift_handling_effect env st skew v :
  skew_reply env = Some skew ->
  corrected_server_sec (T_skew_now st) skew = Some v ->
  exists st',
    drift_handling env st = Ret tt st' /\
    count st' = 0 /\ server_sec st' = v /\
    T_skew_prev st' = T_skew_now st /\ T_skew_now st' = skew /\
    fDrift st' = 0 /\ fSync st' = fSync st /\
    T_trig_n st' = add64 (T_trig_n st) (mul64 (wrap32 (drift_period + 1)) v) /\
    T_sync_n st' = add64 (add64 (T_sync_n st) (mul64 sync_period v)) (div64 v OFFSET) /\
    T_drift_n st' = T_drift_n st /\
    driftTimerID st' = driftTimerID st.
Proof.
  intros Hr Hv. unfold drift_handling, get_skew. rewrite Hr. run_prog.
  rewrite Hv. run_prog.
  reset_shape v1 tr1 Hv1 Ht1. run_prog. reset_shape v2 tr2 Hv2 Ht2. run_prog.
  eexists; split; [reflexivity|]. cbn. repeat split; auto.
Qed.

(** X7: when both flags are pending the sync block runs first and the
    drift block second, in the same iteration.  The drift block then takes the
    skew returned by that synchronization as its previous skew, and the start
    time it returned as the base of the trigger and sync times: the new period
    [v] is estimated from [skew - T_skew_n info], the trigger time is
    [T_start_n info + 62 v] and the sync time
    [T_start_n info + 301 v + v / 2].  The drift time keeps the value the sync
    block computed from the old period. *)
Theorem sync_runs_before_drift
    (env : loop_env) (s : state) (info : timeinfo) (skew v : Z) :
  fSync s <> 0 -> fDrift s <> 0 ->
  sync_reply (on_sync env) = Some info ->
  skew_reply (on_drift env) = Some skew ->
  corrected_server_sec (T_skew_n info) skew = Some v ->
  exists s',
    main_loop_iteration env s = Ret tt s' /\
    T_skew_prev s' = T_skew_n info /\ T_skew_now s' = skew /\
    server_sec s' = v /\
    T_trig_n s' = add64 (T_start_n info) (mul64 (wrap32 (drift_period + 1)) v) /\
    T_sync_n s' =
      add64 (add64 (T_start_n info) (mul64 sync_period v)) (div64 v OFFSET) /\
    T_drift_n s' =
      add64 (add64 (T_start_n info) (mul64 drift_period (server_sec s)))
            (div64 (server_sec s) OFFSET) /\
    count s' = 0 /\ fSync s' = 0 /\ fDrift s' = 0.
Proof.
  intros Hfs Hfd Hsr Hkr Hv.
  destruct (sync_handling_completes _ s info Hsr)
    as (s1 & E1 & Hc1 & Hss1 & Htt1 & Hts1 & Hsn1 & Hsp1 & Hf1 & Hd1).
  assert (Htd1 : T_drift_n s1 =
                 add64 (add64 (T_start_n info) (mul64 drift_period (server_sec s)))
                       (div64 (server_sec s) OFFSET)).
  { revert E1. unfold sync_handling, synchronize. rewrite Hsr. run_prog.
    reset_shape v1 tr1 Hv1 Ht1. run_prog.
    reset_shape v2 tr2 Hv2 Ht2. run_prog. intros [= <-]. reflexivity. }
  rewrite <- Hsn1 in Hv.
  destruct (drift_handling_effect _ s1 skew v Hkr Hv)
    as (s2 & E2 & Hc2 & Hss2 & Hsp2 & Hsn2 & Hd2 & Hf2 & Htt2 & Hts2 & Htd2 & _).
  exists (log_event (EvUsleep 100000) s2). split.
  - unfold main_loop_iteration. rewrite bind_get. unfold bind at 1, when.
    apply Z.eqb_neq in Hfs. rewrite Hfs. cbn [negb]. rewrite E1.
    rewrite bind_get. unfold bind at 1.
    rewrite Hd1. apply Z.eqb_neq in Hfd. rewrite Hfd. cbn [negb]. rewrite E2.
    reflexivity.
  - cbn. repeat split; congruence.
Qed.

Lemma sync_runs_before_drift_witness :
  let s := state_of (main (startup_with 0 (Some first_info))
                       [Expire driftTimer some_clock; Expire syncTimer some_clock]) in
  let info := {| T_skew_n := 500; T_start_n := 400 * BILLION |} in
  let env := {| on_sync := sync_with (Some info); on_drift := drift_with (Some 61500) |} in
  exists s',
    main_loop_iteration env s = Ret tt s' /\
    T_skew_prev s' = 500 /\ T_skew_now s' = 61500 /\
    server_sec s' = 999999000 /\
    T_trig_n s' = add64 (400 * BILLION) (mul64 (wrap32 (drift_period + 1)) 999999000) /\
    T_sync_n s' =
      add64 (add64 (400 * BILLION) (mul64 sync_period 999999000))
            (div64 999999000 OFFSET) /\
    T_drift_n s' =
      add64 (add64 (400 * BILLION) (mul64 drift_period (server_sec s)))
            (div64 (server_sec s) OFFSET) /\
    count s' = 0 /\ fSync s' = 0 /\ fDrift s' = 0.
Proof.
  cbv zeta.
  apply (sync_runs_before_drift
           {| on_sync := sync_with (Some {| T_skew_n := 500; T_start_n := 400 * BILLION |});
              on_drift := drift_with (Some 61500) |}
           (state_of (main (startup_with 0 (Some first_info))
                        [Expire driftTimer some_clock; Expire syncTimer some_clock]))
           {| T_skew_n := 500; T_start_n := 400 * BILLION |} 61500 999999000).
  - vm_compute. discriminate.
  - vm_compute. discriminate.
  - reflexivity.
  - reflexivity.
  - vm_compute. reflexivity.
Defined.

Lemma idle_iteration env s :
  fSync s = 0 -> fDrift s = 0 ->
  main_loop_iteration env s = Ret tt (log_event (EvUsleep 100000) s).
Proof.
  intros Hs Hd. unfold main_loop_iteration. rewrite bind_get. unfold bind at 1, when.
  rewrite Hs. cbn [Z.eqb negb ret]. rewrite bind_get. unfold bind at 1.
  rewrite Hd. reflexivity.
Qed.

(** X8: with no flag pending and no timer expiry in between, any number of
    iterations of the loop return, and all they do is sleep 100 ms each: no
    call to the remote clock, no change to a variable or to a timer. *)
Theorem idle_polls_only_sleep (envs : list loop_env) (s : state) :
  fSync s = 0 -> fDrift s = 0 ->
  exists s',
    run (map Poll envs) s = Ret tt s' /\
    trace s' = repeat (EvUsleep 100000) (List.length envs) ++ trace s /\
    variables s' = variables s /\
    forall t, timer_of t s' = timer_of t s.
Proof.
  revert s. induction envs as [|env envs IH]; intros s Hs Hd.
  - exists s. cbn. auto.
  - destruct (IH (log_event (EvUsleep 100000) s) Hs Hd) as (s' & E & Ht & Hv & Hk).
    exists s'. split; [|split; [|split]].
    + cbn [map run step]. unfold bind at 1.
      rewrite (idle_iteration env s Hs Hd). exact E.
    + rewrite Ht. cbn [trace log_event List.length].
      change (repeat (EvUsleep 100000) (S (List.length envs)))
        with (EvUsleep 100000 :: repeat (EvUsleep 100000) (List.length envs)).
      rewrite (repeat_cons (List.length envs) (EvUsleep 100000)).
      now rewrite <- app_assoc.
    + rewrite Hv. reflexivity.
    + intros t. rewrite Hk. destruct t; reflexivity.
Qed.

Lemma idle_polls_only_sleep_witness :
  let s := state_of (main (startup_with 0 (Some first_info)) []) in
  exists s',
    run (map Poll [ {| on_sync := sync_with None; on_drift := drift_with None |};
                    {| on_sync := sync_with None; on_drift := drift_with None |} ]) s
    = Ret tt s' /\
    trace s' = repeat (EvUsleep 100000) 2 ++ trace s /\
    variables s' = variables s /\
    forall t, timer_of t s' = timer_of t s.
Proof.
  cbv zeta.
  apply (idle_polls_only_sleep
           [ {| on_sync := sync_with None; on_drift := drift_with None |};
             {| on_sync := sync_with None; on_drift := drift_with None |} ]
           (state_of (main (startup_with 0 (Some first_info)) []))).
  - reflexivity.
  - reflexivity.
Defined.

(** ** Invariants of every run *)

Lemma outcome_state {A} (r : result A) (P : state -> Prop) :
  outcome r P P -> P (state_of r).
Proof. destruct r; auto. Qed.

Lemma run_invariant (Q E : state -> Prop) :
  (forall i s, Q s -> outcome (step i s) Q E) ->
  forall ins s, Q s -> outcome (run ins s) Q E.
Proof.
  intros Hstep. induction ins as [|i ins IH]; intros s Hs; cbn [run].
  - exact Hs.
  - apply outcome_bind with (Q := Q); [now apply Hstep|].
    intros _ s' Hs'. now apply IH.
Qed.

Lemma main_outcome (Q E : state -> Prop) env ins :
  outcome (main_startup env initial_state) Q E ->
  (forall i s, Q s -> outcome (step i s) Q E) ->
  outcome (main env ins) Q E.
Proof.
  intros H0 Hstep. unfold main.
  apply outcome_bind with (Q := Q); [exact H0|].
  intros _ s Hs. now apply run_invariant.
Qed.

Lemma main_invariant (P : state -> Prop) env ins :
  outcome (main_startup env initial_state) P P ->
  (forall i s, P s -> outcome (step i s) P P) ->
  P (state_of (main env ins)).
Proof. intros H0 Hstep. apply outcome_state. now apply main_outcome. Qed.

Lemma step_cases (Q E : state -> Prop) :
  (forall t clock s, Q s -> outcome (deliver t clock s) Q E) ->
  (forall env s, Q s -> fSync s <> 0 -> outcome (sync_handling env s) Q E) ->
  (forall env s, Q s -> fDrift s <> 0 -> outcome (drift_handling env s) Q E) ->
  (forall s, Q s -> Q (log_event (EvUsleep 100000) s)) ->
  forall i s, Q s -> outcome (step i s) Q E.
Proof.
  intros Hd Hs Hr Hu [t clock|env] s H; cbn [step]; [now apply Hd|].
  unfold main_loop_iteration, bind at 1, get.
  apply outcome_bind with (Q := Q).
  { unfold when. destruct (fSync s =? 0) eqn:Ef; cbn; [exact H|].
    apply Hs; [exact H|]. now apply Z.eqb_neq. }
  intros _ s1 H1. unfold bind at 1.
  apply outcome_bind with (Q := Q).
  - unfold when. destruct (fDrift s1 =? 0) eqn:Ef; cbn; [exact H1|].
    apply Hr; [exact H1|]. now apply Z.eqb_neq.
  - intros _ s2 H2. cbn. now apply Hu.
Qed.

(** ** Exposures *)

Lemma output_not_trigger_on e : is_output e = true -> is_trigger_on e = false.
Proof. destruct e; cbn; congruence. Qed.

Lemma output_not_trigger_off e : is_output e = true -> is_trigger_off e = false.
Proof. destruct e; cbn; congruence. Qed.

Lemma output_not_logger_log e : is_output e = true -> is_logger_log e = false.
Proof. destruct e; cbn; congruence. Qed.

Ltac count_exposures :=
  repeat (rewrite occurrences_app || rewrite occurrences_cons
          || rewrite occurrences_nil);
  rewrite ?(occurrences_output is_trigger_on) by (assumption || exact output_not_trigger_on);
  rewrite ?(occurrences_output is_trigger_off) by (assumption || exact output_not_trigger_off);
  rewrite ?(occurrences_output is_logger_log) by (assumption || exact output_not_logger_log);
  cbn -[Z.of_nat].

Lemma wrap32_succ c :
  - 2147483648 <= c < 2147483648 ->
  - 2147483648 <= wrap32 (c + 1) < 2147483648 /\ wrap32 (c + 1) <= c + 1.
Proof.
  change 2147483648 with (2 ^ 31). intros H. unfold wrap32.
  pose proof (Z.mod_pos_bound (c + 1 + 2 ^ 31) (2 ^ 32) ltac:(lia)).
  split; [lia|].
  destruct (Z.eq_dec c (2 ^ 31 - 1)) as [->|Hn].
  - vm_compute. discriminate.
  - rewrite Z.mod_small by lia. lia.
Qed.

Lemma startup_exposures env :
  outcome (main_startup env initial_state) exposures_counted exposures_counted.
Proof.
  unfold main_startup, setup, synchronize.
  destruct (peripheral_init_ret env =? -1); destruct (first_sync env) as [info|]; run_prog.
  all: try (unfold exposures_counted, bracket_closed; cbn -[Z.of_nat]; count_exposures; lia).
  all: make_shape v1 tr1 Hv1 Ht1; run_prog.
  all: make_shape v2 tr2 Hv2 Ht2; run_prog.
  all: make_shape v3 tr3 Hv3 Ht3; run_prog.
  all: unfold exposures_counted, bracket_closed; cbn -[Z.of_nat]; count_exposures; lia.
Qed.

Lemma sync_handling_exposures env s :
  exposures_counted s -> outcome (sync_handling env s) exposures_counted exposures_counted.
Proof.
  intros ([Hoff Hlog] & Hr & Hc). unfold sync_handling, synchronize.
  destruct (sync_reply env) as [info|]; run_prog.
  - reset_shape v1 tr1 Hv1 Ht1. run_prog.
    reset_shape v2 tr2 Hv2 Ht2. run_prog.
    unfold exposures_counted, bracket_closed; cbn -[Z.of_nat]; count_exposures. lia.
  - unfold exposures_counted, bracket_closed; cbn -[Z.of_nat]; count_exposures. lia.
Qed.

Lemma drift_handling_exposures env s :
  exposures_counted s -> outcome (drift_handling env s) exposures_counted exposures_counted.
Proof.
  intros ([Hoff Hlog] & Hr & Hc). unfold drift_handling, get_skew.
  destruct (skew_reply env) as [skew|]; run_prog.
  - destruct (corrected_server_sec (T_skew_now s) skew) as [v|]; run_prog.
    + reset_shape v1 tr1 Hv1 Ht1. run_prog.
      reset_shape v2 tr2 Hv2 Ht2. run_prog.
      unfold exposures_counted, bracket_closed; cbn -[Z.of_nat]; count_exposures. lia.
    + unfold exposures_counted, bracket_closed; cbn -[Z.of_nat]; count_exposures. lia.
  - unfold exposures_counted, bracket_closed; cbn -[Z.of_nat]; count_exposures. lia.
Qed.

Lemma deliver_exposures t clock s :
  exposures_counted s -> outcome (deliver t clock s) exposures_counted exposures_counted.
Proof.
  intros Hs. pose proof Hs as ([Hoff Hlog] & Hr & Hc). unfold deliver. run_prog.
  destruct t; cbn.
  - destruct (is_armed (cameraTimerID s)); cbn; [|exact Hs].
    unfold triggerCamera; run_prog.
    pose proof (wrap32_succ (count s) Hr).
    unfold exposures_counted, bracket_closed; cbn -[Z.of_nat]; count_exposures.
    repeat split; lia.
  - destruct (is_armed (syncTimerID s)); cbn; exact Hs.
  - destruct (is_armed (driftTimerID s)); cbn; exact Hs.
Qed.

Lemma step_exposures i s :
  exposures_counted s -> outcome (step i s) exposures_counted exposures_counted.
Proof.
  revert i s. apply step_cases.
  - apply deliver_exposures.
  - intros env s H _. now apply sync_handling_exposures.
  - intros env s H _. now apply drift_handling_exposures.
  - intros s ([Hoff Hlog] & Hr & Hc).
    unfold exposures_counted, bracket_closed; cbn -[Z.of_nat]; count_exposures. lia.
Qed.

(** X9: in every run, however it ends, every exposure that was started
    has been logged and stopped (as many [triggerOff] and [logger->log] calls
    as [triggerOn] calls), and [count] never exceeds the number of exposures
    taken since the start. *)
Theorem exposures_are_closed_and_counted (env : startup_env) (ins : list input) :
  let s := state_of (main env ins) in
  occurrences is_trigger_off (trace s) = occurrences is_trigger_on (trace s) /\
  occurrences is_logger_log (trace s) = occurrences is_trigger_on (trace s) /\
  count s <= Z.of_nat (occurrences is_trigger_on (trace s)).
Proof.
  destruct (main_invariant exposures_counted env ins (startup_exposures env) step_exposures)
    as ([Hoff Hlog] & _ & Hc).
  cbv zeta. auto.
Qed.

(** ** The timers the kernel holds *)

Lemma outcome_of_state {A} (r : result A) (P : state -> Prop) :
  P (state_of r) -> outcome r P P.
Proof. destruct r; auto. Qed.

Lemma resetTimer_keeps ok t T_start t_nsec s :
  exists v tr,
    resetTimer ok t T_start t_nsec s = Ret tt (log_events tr (set_timer t v s)) /\
    is_created v = is_created (timer_of t s) /\
    forallb is_output tr = true.
Proof.
  unfold resetTimer, bind, modify, get, when, ret, emit.
  set (spec := {| it_interval := _; it_value := T_start |}).
  unfold timer_settime.
  destruct (timer_of t s) eqn:E;
    [ exists NotCreated, [EvPrint "timer_settime"]
    | destruct (ok && timespec_valid (it_value spec) && timespec_valid (it_interval spec));
      [ destruct (timespec_is_zero (it_value spec));
        [ exists Disarmed, [] | exists (Armed spec), [] ]
      | exists Disarmed, [EvPrint "timer_settime"] ]
    | destruct (ok && timespec_valid (it_value spec) && timespec_valid (it_interval spec));
      [ destruct (timespec_is_zero (it_value spec));
        [ exists Disarmed, [] | exists (Armed spec), [] ]
      | exists (Armed its), [EvPrint "timer_settime"] ] ];
    (split; [destruct t; reflexivity|split; reflexivity]).
Qed.

Ltac reset_keeps v tr Hc Ht :=
  match goal with
  | |- context [resetTimer ?a ?b ?c ?d ?s] =>
      let E := fresh "E" in
      destruct (resetTimer_keeps a b c d s) as (v & tr & E & Hc & Ht);
      rewrite E; clear E
  end.

Lemma makeTimer_created os name t T_start it_sec it_nsec s :
  timer_of t s = NotCreated ->
  exists r v tr,
    makeTimer os name t T_start it_sec it_nsec s
    = Ret r (log_events tr (set_timer t v s)) /\
    is_created v = negb (sigaction_ret os =? -1) && (timer_create_ret os =? 0) /\
    forallb is_output tr = true.
Proof.
  intros Hn.
  unfold makeTimer, bind, modify, get, ret, emit, timer_create, timer_settime.
  destruct (sigaction_ret os =? -1).
  { eexists _, (timer_of t s), [_; _; _].
    split; [destruct t; reflexivity|]. rewrite Hn. split; reflexivity. }
  destruct (timer_create_ret os =? 0) eqn:Ec; cbn; rewrite ?Ec; cbn.
  - destruct (settime_accepted os && timespec_valid T_start
              && timespec_valid {| tv_sec := it_sec; tv_nsec := it_nsec |}); cbn.
    + destruct (timespec_is_zero T_start).
      * eexists _, Disarmed, [_; _].
        split; [destruct t; reflexivity|]. split; reflexivity.
      * eexists _, (Armed _), [_; _].
        split; [destruct t; reflexivity|]. split; reflexivity.
    + eexists _, Disarmed, [_; _; _].
      split; [destruct t; reflexivity|]. split; reflexivity.
  - eexists _, (timer_of t s), [_; _; _].
    split; [destruct t; reflexivity|]. rewrite Hn. split; reflexivity.
Qed.

Ltac make_created v tr Hc Ht :=
  match goal with
  | |- context [makeTimer ?os ?n ?t ?T ?a ?b ?s] =>
      let E := fresh "E" in
      let r := fresh "r" in
      destruct (makeTimer_created os n t T a b s eq_refl) as (r & v & tr & E & Hc & Ht);
      rewrite E; clear E
  end.

Lemma startup_created env t :
  is_created (timer_of t (state_of (main_startup env initial_state))) =
  match first_sync env with
  | Some _ => negb (sigaction_ret (startup_os env t) =? -1)
              && (timer_create_ret (startup_os env t) =? 0)
  | None => false
  end.
Proof.
  unfold main_startup, setup, synchronize.
  destruct (peripheral_init_ret env =? -1); destruct (first_sync env) as [info|]; run_prog.
  all: try (destruct t; reflexivity).
  all: make_created v1 tr1 Hv1 Ht1; run_prog.
  all: make_created v2 tr2 Hv2 Ht2; run_prog.
  all: make_created v3 tr3 Hv3 Ht3; run_prog.
  all: destruct t; cbn; assumption.
Qed.

Lemma sync_handling_created env s t :
  is_created (timer_of t (state_of (sync_handling env s))) = is_created (timer_of t s).
Proof.
  unfold sync_handling, synchronize.
  destruct (sync_reply env) as [info|]; run_prog.
  - reset_keeps v1 tr1 Hv1 Ht1. run_prog.
    reset_keeps v2 tr2 Hv2 Ht2. run_prog.
    destruct t; cbn in *; congruence.
  - destruct t; reflexivity.
Qed.

Lemma drift_handling_created env s t :
  is_created (timer_of t (state_of (drift_handling env s))) = is_created (timer_of t s).
Proof.
  unfold drift_handling, get_skew.
  destruct (skew_reply env) as [skew|]; run_prog.
  - destruct (corrected_server_sec (T_skew_now s) skew) as [v|]; run_prog.
    + reset_keeps v1 tr1 Hv1 Ht1. run_prog.
      reset_keeps v2 tr2 Hv2 Ht2. run_prog.
      destruct t; cbn in *; congruence.
    + destruct t; reflexivity.
  - destruct t; reflexivity.
Qed.

Lemma deliver_created t' clock s t :
  is_created (timer_of t (state_of (deliver t' clock s))) = is_created (timer_of t s).
Proof.
  unfold deliver. run_prog.
  destruct t'; cbn.
  - destruct (cameraTimerID s) as [| |its] eqn:E; cbn; try (destruct t; reflexivity).
    unfold triggerCamera; run_prog.
    destruct t; cbn; rewrite ?E; try reflexivity.
    destruct (timespec_is_zero (it_interval its)); reflexivity.
  - destruct (syncTimerID s) as [| |its] eqn:E; cbn; try (destruct t; reflexivity).
    destruct t; cbn; rewrite ?E; try reflexivity.
    destruct (timespec_is_zero (it_interval its)); reflexivity.
  - destruct (driftTimerID s) as [| |its] eqn:E; cbn; try (destruct t; reflexivity).
    destruct t; cbn; rewrite ?E; try reflexivity.
    destruct (timespec_is_zero (it_interval its)); reflexivity.
Qed.

Lemma step_created t c i s :
  is_created (timer_of t s) = c ->
  outcome (step i s) (fun s' => is_created (timer_of t s') = c)
                     (fun s' => is_created (timer_of t s') = c).
Proof.
  revert i s.
  apply (step_cases (fun s => is_created (timer_of t s) = c)
                    (fun s => is_created (timer_of t s) = c)).
  - intros t' clock s H. apply outcome_of_state. now rewrite deliver_created.
  - intros env s H _. apply outcome_of_state. now rewrite sync_handling_created.
  - intros env s H _. apply outcome_of_state. now rewrite drift_handling_created.
  - intros s H. destruct t; exact H.
Qed.

(** X10: timers are created by the start-up only.  At any point of any
    run a timer exists exactly when the first synchronization succeeded and
    [sigaction] and [timer_create] succeeded for that timer in the start-up:
    neither the handlers nor the loop create or delete one. *)
Theorem timers_exist_iff_created_at_startup
    (env : startup_env) (ins : list input) (t : timer_name) :
  is_created (timer_of t (state_of (main env ins))) = true <->
  first_sync env <> None /\
  sigaction_ret (startup_os env t) <> -1 /\
  timer_create_ret (startup_os env t) = 0.
Proof.
  pose proof (startup_created env t) as H0.
  set (c := is_created (timer_of t (state_of (main_startup env initial_state)))) in *.
  assert (H : is_created (timer_of t (state_of (main env ins))) = c).
  { apply (main_invariant (fun s => is_created (timer_of t s) = c)).
    - apply outcome_of_state. reflexivity.
    - intros i s. apply step_created. }
  rewrite H, H0.
  destruct (first_sync env) as [info|].
  - rewrite andb_true_iff, negb_true_iff, Z.eqb_neq, Z.eqb_eq.
    intuition congruence.
  - intuition congruence.
Qed.

(** ** No trigger timer, no exposure *)









(** ** Full synchronizations are paid for by skew samples *)

Lemma sync_budget_resyncs s : sync_budget s -> resyncs_bounded s.
Proof. unfold sync_budget, resyncs_bounded. lia. Qed.

Lemma startup_sync_budget env :
  outcome (main_startup env initial_state) sync_budget resyncs_bounded.
Proof.
  unfold main_startup, setup, synchronize.
  destruct (peripheral_init_ret env =? -1); destruct (first_sync env) as [info|]; run_prog.
  all: try (unfold resyncs_bounded; cbn; count_trace; lia).
  all: make_shape v1 tr1 Hv1 Ht1; run_prog.
  all: make_shape v2 tr2 Hv2 Ht2; run_prog.
  all: make_shape v3 tr3 Hv3 Ht3; run_prog.
  all: unfold sync_budget; cbn; count_trace.
  all: cbn in Hv3; destruct Hv3 as [-> | [-> | ->]]; cbn; split; auto; lia.
Qed.

Lemma sync_handling_sync_budget env s :
  sync_budget s -> fSync s <> 0 ->
  outcome (sync_handling env s) sync_budget resyncs_bounded.
Proof.
  intros [Hb Ho] Hf. rewrite (flag_weight_set _ Hf) in Hb.
  unfold sync_handling, synchronize.
  destruct (sync_reply env) as [info|]; run_prog.
  - reset_shape v1 tr1 Hv1 Ht1. run_prog.
    reset_shape v2 tr2 Hv2 Ht2. run_prog.
    unfold sync_budget; cbn; count_trace. split; [lia|assumption].
  - unfold resyncs_bounded; cbn; count_trace. lia.
Qed.

Lemma drift_handling_sync_budget env s :
  sync_budget s -> outcome (drift_handling env s) sync_budget resyncs_bounded.
Proof.
  intros [Hb Ho]. unfold drift_handling, get_skew.
  destruct (skew_reply env) as [skew|]; run_prog.
  - destruct (corrected_server_sec (T_skew_now s) skew) as [v|]; run_prog.
    + reset_shape v1 tr1 Hv1 Ht1. run_prog.
      reset_shape v2 tr2 Hv2 Ht2. run_prog.
      unfold sync_budget; cbn; count_trace.
      pose proof (timer_weight_le_1 (syncTimerID s)).
      cbn in Hv2. destruct Hv2 as [-> | [-> | ->]]; cbn; split; auto; lia.
    + unfold resyncs_bounded; cbn; count_trace. lia.
  - unfold resyncs_bounded; cbn; count_trace. lia.
Qed.

Lemma deliver_sync_budget t clock s :
  sync_budget s -> outcome (deliver t clock s) sync_budget resyncs_bounded.
Proof.
  intros [Hb Ho]. unfold deliver. run_prog.
  destruct t; cbn.
  - destruct (is_armed (cameraTimerID s)); cbn.
    + unfold triggerCamera; run_prog. unfold sync_budget; cbn; count_trace. split; [lia|assumption].
    + split; assumption.
  - destruct (syncTimerID s) as [| |its] eqn:Ed; cbn.
    + unfold sync_budget. rewrite Ed. split; assumption.
    + unfold sync_budget. rewrite Ed. split; assumption.
    + cbn in Ho. rewrite Ho. unfold sync_budget; cbn.
      unfold timer_weight in *; cbn in *. split; [|exact I].
      unfold flag_weight in *. destruct (fSync s =? 0); lia.
  - destruct (is_armed (driftTimerID s)); cbn.
    + unfold sync_budget; cbn. split; [lia|assumption].
    + split; assumption.
Qed.

Lemma step_sync_budget i s :
  sync_budget s -> outcome (step i s) sync_budget resyncs_bounded.
Proof.
  revert i s. apply step_cases.
  - apply deliver_sync_budget.
  - apply sync_handling_sync_budget.
  - intros env s H _. now apply drift_handling_sync_budget.
  - intros s [Hb Ho]. unfold sync_budget; cbn; count_trace. split; assumption.
Qed.

(** X12: the sync timer is one-shot, armed by the start-up and re-armed by
    the drift block only; the sync block leaves it as it found it.  So in
    every run, however it ends, the number of full synchronizations made from
    the loop is at most one more than the number of skew samples. *)
Theorem resyncs_paid_by_drift_cycles (env : startup_env) (ins : list input) :
  (occurrences is_resync (trace (state_of (main env ins)))
   <= 1 + occurrences is_skew_sample (trace (state_of (main env ins))))%nat /\
  forall senv st, syncTimerID (state_of (sync_handling senv st)) = syncTimerID st.
Proof.
  split.
  - pose proof (main_outcome sync_budget resyncs_bounded env ins
                  (startup_sync_budget env) step_sync_budget) as H.
    destruct (main env ins) as [a s|status s|s]; cbn in *;
      [now apply sync_budget_resyncs|exact H|exact H].
  - intros senv st. unfold sync_handling, synchronize.
    destruct (sync_reply senv) as [info|]; run_prog; [|reflexivity].
    reset_shape v1 tr1 Hv1 Ht1. run_prog.
    reset_shape v2 tr2 Hv2 Ht2. run_prog. reflexivity.
Qed.

(** ** The calls of [setup] *)

Section SetupCalls.

Variable p : event -> bool.
Hypothesis p_setup : forall e, is_setup_call e = false -> p e = false.

Lemma output_not_p e : is_output e = true -> p e = false.
Proof. intros H. apply p_setup. destruct e; cbn in *; congruence. Qed.

Ltac count_setup :=
  repeat (rewrite occurrences_app || rewrite occurrences_cons
          || rewrite occurrences_nil);
  rewrite ?(occurrences_output p) by (assumption || exact output_not_p);
  repeat match goal with
         | |- context [p ?e] => rewrite (p_setup e eq_refl)
         end;
  cbn [Nat.add].

Lemma sync_handling_setup env s :
  occurrences p (trace (state_of (sync_handling env s))) = occurrences p (trace s).
Proof.
  unfold sync_handling, synchronize.
  destruct (sync_reply env) as [info|]; run_prog.
  - reset_shape v1 tr1 Hv1 Ht1. run_prog.
    reset_shape v2 tr2 Hv2 Ht2. run_prog.
    cbn; count_setup. reflexivity.
  - count_setup. reflexivity.
Qed.

Lemma drift_handling_setup env s :
  occurrences p (trace (state_of (drift_handling env s))) = occurrences p (trace s).
Proof.
  unfold drift_handling, get_skew.
  destruct (skew_reply env) as [skew|]; run_prog.
  - destruct (corrected_server_sec (T_skew_now s) skew) as [v|]; run_prog.
    + reset_shape v1 tr1 Hv1 Ht1. run_prog.
      reset_shape v2 tr2 Hv2 Ht2. run_prog.
      cbn; count_setup. reflexivity.
    + count_setup. reflexivity.
  - count_setup. reflexivity.
Qed.

Lemma deliver_setup t clock s :
  occurrences p (trace (state_of (deliver t clock s))) = occurrences p (trace s).
Proof.
  unfold deliver. run_prog.
  destruct t; cbn.
  - destruct (is_armed (cameraTimerID s)); cbn; [|reflexivity].
    unfold triggerCamera; run_prog. count_setup. reflexivity.
  - destruct (is_armed (syncTimerID s)); reflexivity.
  - destruct (is_armed (driftTimerID s)); reflexivity.
Qed.

Lemma step_setup n i s :
  occurrences p (trace s) = n ->
  outcome (step i s) (fun s' => occurrences p (trace s') = n)
                     (fun s' => occurrences p (trace s') = n).
Proof.
  revert i s.
  apply (step_cases (fun s => occurrences p (trace s) = n)
                    (fun s => occurrences p (trace s) = n)).
  - intros t clock s H. apply outcome_of_state. now rewrite deliver_setup.
  - intros env s H _. apply outcome_of_state. now rewrite sync_handling_setup.
  - intros env s H _. apply outcome_of_state. now rewrite drift_handling_setup.
  - intros s H. cbn. count_setup. exact H.
Qed.

Lemma main_setup env ins :
  occurrences p (trace (state_of (main env ins)))
  = occurrences p (trace (state_of (main_startup env initial_state))).
Proof.
  apply (main_invariant
           (fun s => occurrences p (trace s)
                     = occurrences p (trace (state_of (main_startup env initial_state))))).
  - apply outcome_of_state. reflexivity.
  - intros i s. apply step_setup.
Qed.

End SetupCalls.

Lemma startup_setup_calls env :
  let s := state_of (main_startup env initial_state) in
  occurrences is_peripheral_init (trace s) = 1%nat /\
  occurrences is_logger_open (trace s)
  = if peripheral_init_ret env =? -1 then 0%nat else 1%nat.
Proof.
  cbv zeta. unfold main_startup, setup, synchronize.
  destruct (peripheral_init_ret env =? -1); destruct (first_sync env) as [info|]; run_prog.
  all: try (split; reflexivity).
  all: make_shape v1 tr1 Hv1 Ht1; run_prog.
  all: make_shape v2 tr2 Hv2 Ht2; run_prog.
  all: make_shape v3 tr3 Hv3 Ht3; run_prog.
  all: cbn; repeat (rewrite occurrences_app || rewrite occurrences_cons
                    || rewrite occurrences_nil).
  all: rewrite ?(occurrences_output is_peripheral_init)
         by (assumption || (intros e He; destruct e; cbn in *; congruence)).
  all: rewrite ?(occurrences_output is_logger_open)
         by (assumption || (intros e He; destruct e; cbn in *; congruence)).
  all: split; reflexivity.
Qed.

(** X13: in every run, however it ends, [peripheral->init] is called
    exactly once, and [logger->open] exactly once if that call did not return
    -1 and never otherwise: neither the handlers nor the loop call them. *)
Theorem setup_runs_once (env : startup_env) (ins : list input) :
  let s := state_of (main env ins) in
  occurrences is_peripheral_init (trace s) = 1%nat /\
  occurrences is_logger_open (trace s)
  = (if peripheral_init_ret env =? -1 then 0%nat else 1%nat).
Proof.
  cbv zeta.
  rewrite (main_setup is_peripheral_init), (main_setup is_logger_open).
  - exact (startup_setup_calls env).
  - intros e He. unfold is_setup_call in He. apply orb_false_iff in He. tauto.
  - intros e He. unfold is_setup_call in He. apply orb_false_iff in He. tauto.
Qed.

(** ** A skew that cancels the nominal second *)

Lemma quot_drift_period_zero d :
  - (drift_period * BILLION) - 60 <= d <= - (drift_period * BILLION) ->
  Z.quot d drift_period = - BILLION.
Proof.
  unfold drift_period, BILLION. intros H.
  assert (H1 : Z.quot (- 61000000060) 61 <= Z.quot d 61) by (apply Z.quot_le_mono; lia).
  assert (H2 : Z.quot d 61 <= Z.quot (- 61000000000) 61) by (apply Z.quot_le_mono; lia).
  change (Z.quot (- 61000000060) 61) with (- 1000000000) in H1.
  change (Z.quot (- 61000000000) 61) with (- 1000000000) in H2. lia.
Qed.

Lemma server_period_zero prev now :
  - (drift_period * BILLION) - 60 <= now - prev <= - (drift_period * BILLION) ->
  server_period prev now = S754_zero false.
Proof.
  intros H. unfold server_period, sub64, div64, add64.
  rewrite (wrap64_id (now - prev)) by (unfold drift_period, BILLION in H; lia).
  rewrite (quot_drift_period_zero _ H).
  reflexivity.
Qed.

(** X14: a skew that falls by [61e9 .. 61e9 + 60] ns between two drift
    cycles makes the integer quotient of line 318 equal to [-BILLION] and the
    divisor zero.  Line 319 then divides by [0.0], multiplies the infinity by
    1e9 and casts [+inf] to [long long], which the language leaves undefined;
    nothing after the cast is modelled, and up to it the period, the trigger
    time, the drift flag and the timers are unchanged. *)
Theorem cancelling_skew_is_undefined (env : drift_env) (st : state) (skew : Z) :
  skew_reply env = Some skew ->
  - (drift_period * BILLION) - 60 <= skew - T_skew_now st
                                  <= - (drift_period * BILLION) ->
  Double.mul (Double.of_int BILLION)
    (Double.div (Double.of_int BILLION) (server_period (T_skew_now st) skew))
  = S754_infinity false /\
  corrected_server_sec (T_skew_now st) skew = None /\
  exists st',
    drift_handling env st = Undef st' /\
    server_sec st' = server_sec st /\ T_trig_n st' = T_trig_n st /\
    fDrift st' = fDrift st /\
    forall t, timer_of t st' = timer_of t st.
Proof.
  intros Hr Hd.
  assert (Hinf : Double.mul (Double.of_int BILLION)
                   (Double.div (Double.of_int BILLION)
                      (server_period (T_skew_now st) skew)) = S754_infinity false).
  { rewrite (server_period_zero _ _ Hd). reflexivity. }
  assert (Hv : corrected_server_sec (T_skew_now st) skew = None).
  { unfold corrected_server_sec. rewrite Hinf. reflexivity. }
  split; [exact Hinf|]. split; [exact Hv|].
  unfold drift_handling, get_skew. rewrite Hr. run_prog. rewrite Hv. run_prog.
  eexists; split; [reflexivity|]. cbn. repeat split; auto.
Qed.

Lemma cancelling_skew_is_undefined_witness :
  Double.mul (Double.of_int BILLION)
    (Double.div (Double.of_int BILLION)
       (server_period (T_skew_now initial_state) (- 61000000000)))
  = S754_infinity false /\
  corrected_server_sec (T_skew_now initial_state) (- 61000000000) = None /\
  exists st',
    drift_handling (drift_with (Some (- 61000000000))) initial_state = Undef st' /\
    server_sec st' = server_sec initial_state /\
    T_trig_n st' = T_trig_n initial_state /\
    fDrift st' = fDrift initial_state /\
    forall t, timer_of t st' = timer_of t initial_state.
Proof.
  apply (cancelling_skew_is_undefined (drift_with (Some (- 61000000000)))
           initial_state (- 61000000000)).
  - reflexivity.
  - vm_compute. split; discriminate.
Defined.

(** ** A negative divisor *)

(** Rounding does not look at the sign. *)
Lemma binary_round_aux_opp mx ex lx :
  binary_round_aux prec emax true mx ex lx
  = SFopp (binary_round_aux prec emax false mx ex lx).
Proof.
  unfold binary_round_aux.
  destruct (shr_fexp prec emax mx ex lx) as [mrs' e'].
  destruct (shr_fexp prec emax _ e' loc_Exact) as [mrs'' e''].
  destruct (shr_m mrs''); try reflexivity.
  destruct (e'' <=? emax - prec); reflexivity.
Qed.

Lemma of_int_opp z : 0 < z -> of_int (- z) = SFopp (of_int z).
Proof.
  intros Hz. destruct z as [|p|p]; try lia.
  unfold of_int. cbn [Z.opp binary_normalize]. unfold binary_round.
  destruct (shl_align p 0 _) as [mz ez]. apply binary_round_aux_opp.
Qed.

Lemma div_opp_r a b c d x y :
  between a b x -> between c d y -> div x (SFopp y) = SFopp (div x y).
Proof.
  intros (mx & ex & -> & _) (my & ey & -> & _).
  unfold div. cbn [SFopp negb SFdiv xorb].
  destruct (SFdiv_core_binary prec emax (Zpos mx) ex (Zpos my) ey) as [[mz ez] lz].
  apply binary_round_aux_opp.
Qed.

Lemma mul_opp_r a b c d x y :
  between a b x -> between c d y -> mul x (SFopp y) = SFopp (mul x y).
Proof.
  intros (mx & ex & -> & _) (my & ey & -> & _).
  unfold mul. cbn [SFopp negb SFmul xorb]. apply binary_round_aux_opp.
Qed.

Lemma to_int64_opp a b x v :
  between a b x -> to_int64 x = Some v -> to_int64 (SFopp x) = Some (- v).
Proof.
  intros (m & e & -> & _). cbn [to_int64 SFopp negb cond_Zopp].
  assert (H0 : 0 <= Z.shiftl (Zpos m) e) by (apply Z.shiftl_nonneg; lia).
  unfold in_int64, min_int64, max_int64.
  destruct (- 2 ^ 63 <=? Z.shiftl (Z.pos m) e) eqn:E1; [|discriminate].
  destruct (Z.shiftl (Z.pos m) e <=? 2 ^ 63 - 1) eqn:E2; [|discriminate].
  cbn [andb]. intros [= <-].
  apply Z.leb_le in E2.
  replace (- 2 ^ 63 <=? - Z.shiftl (Z.pos m) e) with true by (symmetry; apply Z.leb_le; lia).
  replace (- Z.shiftl (Z.pos m) e <=? 2 ^ 63 - 1) with true by (symmetry; apply Z.leb_le; lia).
  reflexivity.
Qed.

Lemma quot_drift_period_lower d :
  - 2 ^ 63 <= d -> - 2 ^ 58 + BILLION <= Z.quot d drift_period.
Proof.
  unfold drift_period, BILLION. change (2 ^ 63) with 9223372036854775808.
  change (2 ^ 58) with 288230376151711744. intros H.
  assert (Z.quot (- 9223372036854775808) 61 <= Z.quot d 61) by (apply Z.quot_le_mono; lia).
  change (Z.quot (- 9223372036854775808) 61) with (- 151202820276307800) in H0. lia.
Qed.

Lemma quot_drift_period_le d :
  d < - (drift_period * BILLION) - 60 -> Z.quot d drift_period < - BILLION.
Proof.
  unfold drift_period, BILLION. intros H.
  assert (Z.quot d 61 <= Z.quot (- 61000000061) 61) by (apply Z.quot_le_mono; lia).
  change (Z.quot (- 61000000061) 61) with (- 1000000001) in H0. lia.
Qed.

Lemma corrected_negative prev now :
  - 2 ^ 63 <= now - prev ->
  now - prev < - (drift_period * BILLION) - 60 ->
  exists v, corrected_server_sec prev now = Some v /\ - 2 ^ 60 <= v <= -1.
Proof.
  intros Hr Hd.
  assert (Hr' : - 2 ^ 63 <= now - prev < 2 ^ 63).
  { split; [exact Hr|]. unfold drift_period, BILLION in Hd.
    change (2 ^ 63) with 9223372036854775808. lia. }
  pose proof (quot_drift_period_lower _ Hr) as Hl.
  pose proof (quot_drift_period_le _ Hd) as Hu.
  unfold corrected_server_sec, server_period.
  rewrite server_period_arg_exact by assumption.
  set (x := Z.quot (now - prev) drift_period + BILLION) in *.
  assert (Hx : 1 <= - x <= 2 ^ 58) by (unfold BILLION in *; lia).
  replace x with (- - x) by lia.
  rewrite (of_int_opp (- x)) by lia.
  assert (X : between 0 58 (of_int (- x))).
  { apply of_int_between; try lia. }
  pose proof billion_between as B.
  rewrite (div_opp_r _ _ _ _ _ _ B X).
  assert (R : between (29 - 58) (30 - 0) (div (of_int BILLION) (of_int (- x))))
    by (apply div_between; try lia; assumption).
  rewrite (mul_opp_r _ _ _ _ _ _ B R).
  assert (P : between (29 + (29 - 58)) (30 + (30 - 0))
                (mul (of_int BILLION) (div (of_int BILLION) (of_int (- x)))))
    by (apply mul_between; try lia; assumption).
  destruct (to_int64_between (29 + (29 - 58)) (30 + (30 - 0)) _ ltac:(lia) ltac:(lia) P)
    as (v & E & Hv).
  exists (- v). split; [exact (to_int64_opp _ _ _ _ P E)|].
  change (2 ^ (29 + (29 - 58))) with 1 in Hv.
  change (30 + (30 - 0)) with 60 in Hv. lia.
Qed.

(** X15: a skew that falls by more than [61e9 + 60] ns between two drift
    cycles gives a negative divisor on line 318, and the period estimate of
    line 319 is then defined and strictly negative.  The drift block stores
    it in [server_sec] and moves the trigger time back by 62 of these periods,
    but the re-arming of the trigger timer is rejected (the interval is
    negative): the timer keeps the schedule it had, and [perror] prints
    ["timer_settime"]. *)
Theorem negative_period_is_rejected (env : drift_env) (st : state) (skew : Z) :
  skew_reply env = Some skew ->
  min_int64 <= skew - T_skew_now st ->
  skew - T_skew_now st < - (drift_period * BILLION) - 60 ->
  exists v st',
    corrected_server_sec (T_skew_now st) skew = Some v /\
    - 2 ^ 60 <= v < 0 /\
    drift_handling env st = Ret tt st' /\
    server_sec st' = v /\
    T_trig_n st' = add64 (T_trig_n st) (mul64 (wrap32 (drift_period + 1)) v) /\
    cameraTimerID st' = cameraTimerID st /\
    In (EvPrint "timer_settime") (trace st').
Proof.
  intros Hr Hmin Hd.
  destruct (corrected_negative (T_skew_now st) skew Hmin Hd) as (v & Hv & Hv1 & Hv2).
  exists v.
  assert (Hp : mul64 v PERIOD = v).
  { apply mul64_period. unfold min_int64, max_int64.
    change (2 ^ 60) with 1152921504606846976 in Hv1.
    change (2 ^ 63) with 9223372036854775808. lia. }
  assert (Hn : - (2 ^ 31 * BILLION) < v < 0).
  { unfold BILLION. change (2 ^ 60) with 1152921504606846976 in Hv1.
    change (2 ^ 31) with 2147483648. lia. }
  unfold drift_handling, get_skew. rewrite Hr. run_prog. rewrite Hv. run_prog.
  rewrite Hp.
  rewrite resetTimer_rejected
    by (rewrite (negative_interval_invalid v Hn); apply andb_false_r).
  run_prog. reset_shape v2 tr2 Hv2' Ht2. run_prog.
  eexists. split; [reflexivity|]. split; [lia|]. split; [reflexivity|].
  cbn. repeat split; auto.
  apply in_or_app. right. left. reflexivity.
Qed.

Lemma negative_period_is_rejected_witness :
  let st := state_of (main (startup_with 0 (Some first_info))
                        [Expire driftTimer some_clock]) in
  exists v st',
    corrected_server_sec (T_skew_now st) (- 62000000000) = Some v /\
    - 2 ^ 60 <= v < 0 /\
    drift_handling (drift_with (Some (- 62000000000))) st = Ret tt st' /\
    server_sec st' = v /\
    T_trig_n st' = add64 (T_trig_n st) (mul64 (wrap32 (drift_period + 1)) v) /\
    cameraTimerID st' = cameraTimerID st /\
    In (EvPrint "timer_settime") (trace st').
Proof.
  cbv zeta.
  apply (negative_period_is_rejected (drift_with (Some (- 62000000000)))
           (state_of (main (startup_with 0 (Some first_info))
                        [Expire driftTimer some_clock]))
           (- 62000000000)).
  - reflexivity.
  - vm_compute. discriminate.
  - vm_compute. reflexivity.
Defined.

(** ** Small skews *)

Lemma square_below q : -16393 <= q <= 16393 -> 0 <= q * q < q + 1000000000.
Proof. intros H. nia. Qed.

(** Within a millisecond the truncated quotient is linear in the skew. *)
Lemma truncated_estimate_linear d :
  -1000000 <= d <= 1000000 ->
  truncated_estimate d = BILLION - Z.quot d drift_period.
Proof.
  intros H. unfold truncated_estimate, BILLION, drift_period.
  assert (Hq : Z.quot (-1000000) 61 <= Z.quot d 61 <= Z.quot 1000000 61)
    by (split; apply Z.quot_le_mono; lia).
  change (Z.quot (-1000000) 61) with (-16393) in Hq.
  change (Z.quot 1000000 61) with 16393 in Hq.
  set (q := Z.quot d 61) in *.
  pose proof (square_below q Hq) as Hs.
  symmetry. apply Z.div_unique with (r := q * q); [left; exact Hs|].
  change (10 ^ 18) with (1000000000 * 1000000000). ring.
Qed.

Lemma quot_drift_period_sign d :
  (Z.abs d < drift_period -> Z.quot d drift_period = 0) /\
  (drift_period <= d -> 1 <= Z.quot d drift_period) /\
  (d <= - drift_period -> Z.quot d drift_period <= -1).
Proof.
  unfold drift_period. split; [|split]; intros H.
  - destruct (Z_lt_le_dec d 0) as [N|N].
    + rewrite <- (Z.opp_involutive d), Z.quot_opp_l by lia.
      rewrite Z.quot_small by lia. reflexivity.
    + apply Z.quot_small. lia.
  - assert (Z.quot 61 61 <= Z.quot d 61) by (apply Z.quot_le_mono; lia).
    change (Z.quot 61 61) with 1 in H0. exact H0.
  - assert (Z.quot d 61 <= Z.quot (-61) 61) by (apply Z.quot_le_mono; lia).
    change (Z.quot (-61) 61) with (-1) in H0. exact H0.
Qed.

(** X16: for a skew change [d] of at most a millisecond between two drift
    cycles the estimate of lines 318-319 is linear: the drift block completes
    with [server_sec = BILLION - d / 61], the quotient truncated toward zero.
    So a change of less than 61 ns is ignored, a growing skew shortens the
    period and a falling skew lengthens it. *)
Theorem small_skew_linear_correction (env : drift_env) (st : state) (skew : Z) :
  skew_reply env = Some skew ->
  -1000000 <= skew - T_skew_now st <= 1000000 ->
  exists st',
    drift_handling env st = Ret tt st' /\
    server_sec st' = BILLION - Z.quot (skew - T_skew_now st) drift_period /\
    (Z.abs (skew - T_skew_now st) < drift_period -> server_sec st' = BILLION) /\
    (drift_period <= skew - T_skew_now st -> server_sec st' < BILLION) /\
    (skew - T_skew_now st <= - drift_period -> BILLION < server_sec st').
Proof.
  intros Hr Hd.
  pose proof (corrected_within_1ms (T_skew_now st) skew Hd) as Hv.
  rewrite (truncated_estimate_linear _ Hd) in Hv.
  destruct (drift_handling_completes env st skew _ Hr Hv) as (st' & E & _ & Hs & _).
  destruct (quot_drift_period_sign (skew - T_skew_now st)) as (H0 & H1 & H2).
  exists st'. split; [exact E|]. rewrite Hs. split; [reflexivity|].
  split; [|split]; intros H.
  - rewrite (H0 H). lia.
  - specialize (H1 H). lia.
  - specialize (H2 H). lia.
Qed.

Lemma small_skew_linear_correction_witness :
  exists st',
    drift_handling (drift_with (Some (- 61000))) initial_state = Ret tt st' /\
    server_sec st' = BILLION - Z.quot (- 61000 - T_skew_now initial_state) drift_period /\
    (Z.abs (- 61000 - T_skew_now initial_state) < drift_period -> server_sec st' = BILLION) /\
    (drift_period <= - 61000 - T_skew_now initial_state -> server_sec st' < BILLION) /\
    (- 61000 - T_skew_now initial_state <= - drift_period -> BILLION < server_sec st').
Proof.
  apply (small_skew_linear_correction (drift_with (Some (- 61000))) initial_state (- 61000)).
  - reflexivity.
  - vm_compute. split; discriminate.
Defined.
